(** * AdaIN-TF, [webcam.py]: the interactive stylization control loop

    A shallow embedding of [StyleWindow] and [main].  The collaborators the
    script imports (OpenCV, NumPy's random generator, SciPy's filter, the
    [utils] helpers and the [AdaINference] engine) are interfaces: type
    classes whose fields are the calls the script makes.  The script's own
    code is written out over them in a state-and-exception monad whose state
    holds the [StyleWindow] object, the random generator and the trace of the
    calls made to the presentation layer, the video sink and the engine.

    What is taken from the collaborators' documentation rather than from
    the script: [cv2.resize], [cv2.cvtColor] and [np.hstack] raise on an
    input they reject (an empty image, a size that is not positive, shapes
    that do not fit); when [cv2.resize] returns, the result has the size it
    was asked for, and whether it rejects an image given [fx], [fy] depends
    on the image's shape only; [np.random.randint(n)] returns a number in
    [0, n); listing the style directory, loading a style image, [int] of a
    float and calling the engine may raise.  [cv2.imshow] is only ever
    handed an image that [cv2.resize] or [cv2.cvtColor] has just returned;
    it is taken to return, and so are the other calls to HighGUI, to the
    camera, to the video writer and to the FPS counter.  HighGUI runs
    trackbar callbacks while [cv2.waitKey] waits and reports, without
    re-raising, an exception that a callback raises.  The camera and the
    keyboard are inputs: [main] is run on the sample frame and on a finite
    list of ticks, each tick giving the camera's answer, the trackbar moves
    and the key of one pass of the loop. *)

From stdpp Require Import base list strings.
From Stdlib Require Import ZArith QArith Qround Lia.

Close Scope Q_scope.

Local Open Scope string_scope.
Local Open Scope list_scope.
Local Open Scope Z_scope.

(** ** Python values *)

Inductive Exn :=
| AttributeError (attr : string)
| NameError (name : string)
| IndexError
| ValueError
| OverflowError
| CvError
| ExternalError (what : string).

Inductive Res (A : Type) :=
| Ok (a : A)
| Raise (e : Exn).
Arguments Ok {A} a.
Arguments Raise {A} e.

(** Python floats are kept abstract: the script only divides two ints
    ([from __future__ import division]), subtracts a float from an int,
    and truncates a product ([int(scale*100)]), which raises when the
    product is not finite. *)
Class PyFloat := {
  float : Type;
  float_of_Z : Z -> float;          (* the literal [1.] is [float_of_Z 1] *)
  truediv : Z -> Z -> float;        (* [a / b] on two ints *)
  rsub : Z -> float -> float;       (* [a - x], int minus float *)
  int_mul : float -> Z -> Res Z;    (* [int(x * k)] *)
}.

(** [args.scale] and [args.alpha] are floats when given on the command line
    and the int default [1] otherwise. *)
Inductive pynum `{PyFloat} :=
| PInt (z : Z)
| PFloat (x : float).

(** Python list indexing: [l[i]] accepts [-len(l) <= i < len(l)]. *)
Definition py_index {A} (l : list A) (i : Z) : option nat :=
  let n := Z.of_nat (length l) in
  if bool_decide (0 <= i < n) then Some (Z.to_nat i)
  else if bool_decide (- n <= i < 0) then Some (Z.to_nat (i + n))
  else None.

Definition py_getitem {A} (l : list A) (i : Z) : option A :=
  match py_index l i with
  | Some k => l !! k
  | None => None
  end.

Definition py_setitem {A} (l : list A) (i : Z) (x : A) : option (list A) :=
  match py_index l i with
  | Some k => Some (<[k:=x]> l)
  | None => None
  end.

(** ** The collaborators *)

Inductive ColorCode := COLOR_BGR2RGB | COLOR_RGB2BGR.

(** OpenCV, [np.hstack] and SciPy's [gaussian_filter] on images.  [shape]
    is [ndarray.shape]: rows, columns, channels.  [cv2.resize],
    [cv2.cvtColor] and [np.hstack] can raise.  When it returns,
    [cv2.resize] with a [dsize] of (width, height) gives that size, and
    with [fx], [fy] the rounded scaled size, [scaled] being the rounding
    rule; with [fx], [fy] it rejects an image for its shape, so it rejects
    every image of that shape, with the same error. *)
Class Imaging `{PyFloat} := {
  Img : Type;
  shape : Img -> Z * Z * Z;
  scaled : Z -> pynum -> Z;
  cv2_resize : Img -> Z * Z -> Res Img;
  cv2_resize_by : Img -> pynum -> pynum -> Res Img;
  cv2_cvtColor : Img -> ColorCode -> Res Img;
  np_hstack : list Img -> Res Img;
  gaussian_filter : Img -> float -> Img;
  shape_resize : forall src w h img,
    cv2_resize src (w, h) = Ok img -> shape img = (h, w, (shape src).2);
  shape_resize_by : forall src fx fy img,
    cv2_resize_by src fx fy = Ok img ->
    shape img =
    (scaled (shape src).1.1 fy, scaled (shape src).1.2 fx, (shape src).2);
  resize_by_raises : forall src src' fx fy e,
    shape src = shape src' ->
    cv2_resize_by src fx fy = Raise e -> cv2_resize_by src' fx fy = Raise e;
}.

(** NumPy's global generator, as an explicit state.  [randint g n] is
    [np.random.randint(n)] for [0 < n]; [randint_array g s] is
    [np.random.randint(0, 256, s, np.uint8)]. *)
Class NumpyRandom `{Imaging} := {
  Rng : Type;
  randint : Rng -> Z -> Z * Rng;
  randint_array : Rng -> Z * Z * Z -> Img * Rng;
  randint_range : forall g n, 0 < n -> 0 <= (randint g n).1 < n;
}.

(** [utils]: the style catalog and the colour transfer.  Listing the
    directory and loading an image can fail. *)
Class Utils `{Imaging} := {
  get_files : string -> Res (list string);
  get_img_crop : string -> Z -> Z -> Res Img;
  preserve_colors : Img -> Img -> Img;
}.

(** [inference.AdaINference]: both calls can fail.  A style slot that was
    never loaded is [None]. *)
Class Engine `{Imaging} := {
  predict : Img -> option Img -> pynum -> Res Img;
  predict_interpolate :
    Img -> list (option Img) -> list float -> pynum -> Res Img;
}.

(** ** Command line *)

Record Args `{PyFloat} := {
  video_source : Z;
  checkpoint : string;
  style_path : string;
  width : option Z;
  height : option Z;
  video_out : option string;
  fps : Z;
  arg_scale : pynum;
  arg_keep_colors : bool;
  device : string;
  style_size : Z;
  arg_alpha : pynum;
  concat : bool;
  interpolate : bool;
  noise : bool;
  random : Z;
}.

(** ** State, trace and monad *)

(** The bound methods handed to [cv2.createTrackbar]. *)
Inductive Callback :=
| cb_set_idx | cb_set_alpha | cb_set_size | cb_set_crop_size
| cb_set_scale | cb_set_interp.

Section Model.
Context `{PF : PyFloat} `{IM : !Imaging} `{NR : !NumpyRandom}
        `{UT : !Utils} `{EN : !Engine}.

(** The attributes of a [StyleWindow].  [idx] and [interp_weight] are
    assigned only on some paths, and nothing assigns [style_rgb]: an
    attribute that is not set reads as [AttributeError]. *)
Record StyleWindow := {
  style_imgs : list string;
  style_rgbs : list (option Img);
  img_size : Z;
  crop_size : Z;
  scale : pynum;
  alpha : pynum;
  idx : option Z;
  interp_weight : option float;
  style_rgb : option Img;
}.

Definition with_style_rgbs (v : list (option Img)) (s : StyleWindow) :=
  {| style_imgs := style_imgs s; style_rgbs := v; img_size := img_size s;
     crop_size := crop_size s; scale := scale s; alpha := alpha s;
     idx := idx s; interp_weight := interp_weight s;
     style_rgb := style_rgb s |}.
Definition with_img_size (v : Z) (s : StyleWindow) :=
  {| style_imgs := style_imgs s; style_rgbs := style_rgbs s; img_size := v;
     crop_size := crop_size s; scale := scale s; alpha := alpha s;
     idx := idx s; interp_weight := interp_weight s;
     style_rgb := style_rgb s |}.
Definition with_crop_size (v : Z) (s : StyleWindow) :=
  {| style_imgs := style_imgs s; style_rgbs := style_rgbs s;
     img_size := img_size s; crop_size := v; scale := scale s;
     alpha := alpha s; idx := idx s; interp_weight := interp_weight s;
     style_rgb := style_rgb s |}.
Definition with_scale (v : pynum) (s : StyleWindow) :=
  {| style_imgs := style_imgs s; style_rgbs := style_rgbs s;
     img_size := img_size s; crop_size := crop_size s; scale := v;
     alpha := alpha s; idx := idx s; interp_weight := interp_weight s;
     style_rgb := style_rgb s |}.
Definition with_alpha (v : pynum) (s : StyleWindow) :=
  {| style_imgs := style_imgs s; style_rgbs := style_rgbs s;
     img_size := img_size s; crop_size := crop_size s; scale := scale s;
     alpha := v; idx := idx s; interp_weight := interp_weight s;
     style_rgb := style_rgb s |}.
Definition with_idx (v : Z) (s : StyleWindow) :=
  {| style_imgs := style_imgs s; style_rgbs := style_rgbs s;
     img_size := img_size s; crop_size := crop_size s; scale := scale s;
     alpha := alpha s; idx := Some v; interp_weight := interp_weight s;
     style_rgb := style_rgb s |}.
Definition with_interp_weight (v : float) (s : StyleWindow) :=
  {| style_imgs := style_imgs s; style_rgbs := style_rgbs s;
     img_size := img_size s; crop_size := crop_size s; scale := scale s;
     alpha := alpha s; idx := idx s; interp_weight := Some v;
     style_rgb := style_rgb s |}.
Definition with_style_rgb (v : Img) (s : StyleWindow) :=
  {| style_imgs := style_imgs s; style_rgbs := style_rgbs s;
     img_size := img_size s; crop_size := crop_size s; scale := scale s;
     alpha := alpha s; idx := idx s; interp_weight := interp_weight s;
     style_rgb := Some v |}.

(** The calls that leave the script, in the order they are made. *)
Inductive Event :=
| LoadModel (ckpt dev : string)
| NamedWindow (name : string)
| CreateTrackbar (name window : string) (value count : Z) (cb : Callback)
| ImShow (window : string) (img : Img)
| CapStart (src : Z) (w h : option Z)
| CapStop
| VideoWriterOpen (path : string) (fps : Z) (size : Z * Z)
| VideoWrite (img : Img)
| VideoRelease
| CallPredict (content : Img) (style : option Img) (a : pynum)
| CallPredictInterpolate (content : Img) (styles : list (option Img))
    (weights : list float) (a : pynum)
| FpsStart
| FpsUpdate
| FpsStop
| PrintOutShape (size : Z * Z)
| PrintFrame (count : Z) (orig new : Z * Z * Z)
| PrintKeepColors (b : bool)
| PrintInfo
| DestroyAllWindows.

Record World := {
  self : StyleWindow;
  rng : Rng;
  trace : list Event;
}.

Definition M (A : Type) : Type := World -> Res A * World.

Definition mret {A} (a : A) : M A := fun w => (Ok a, w).
Definition mbind {A B} (m : M A) (k : A -> M B) : M B :=
  fun w => match m w with
           | (Ok a, w') => k a w'
           | (Raise e, w') => (Raise e, w')
           end.
Definition raise {A} (e : Exn) : M A := fun w => (Raise e, w).
Definition lift {A} (r : Res A) : M A := fun w => (r, w).
Definition gets {A} (f : StyleWindow -> A) : M A := fun w => (Ok (f (self w)), w).
Definition update (f : StyleWindow -> StyleWindow) (w : World) : World :=
  {| self := f (self w); rng := rng w; trace := trace w |}.
Definition modify (f : StyleWindow -> StyleWindow) : M unit :=
  fun w => (Ok tt, update f w).
Definition push (e : Event) (w : World) : World :=
  {| self := self w; rng := rng w; trace := trace w ++ [e] |}.
Definition emit (e : Event) : M unit := fun w => (Ok tt, push e w).
Definition with_rng {A} (f : Rng -> A * Rng) : M A :=
  fun w => let '(a, g) := f (rng w) in
           (Ok a, {| self := self w; rng := g; trace := trace w |}).
Definition getattr {A} (f : StyleWindow -> option A) (name : string) : M A :=
  fun w => match f (self w) with
           | Some a => (Ok a, w)
           | None => (Raise (AttributeError name), w)
           end.
Definition from_option {A} (o : option A) (e : Exn) : M A :=
  match o with Some a => mret a | None => raise e end.
(* an exception raised by the action is reported and dropped; what the
   action did before it stays done *)
Definition swallow (m : M unit) : M unit :=
  fun w => (Ok tt, (m w).2).

#[local] Notation "x <- m ;; k" := (mbind m (fun x => k))
  (at level 100, m at next level, right associativity).
#[local] Notation "m ;; k" := (mbind m (fun _ => k))
  (at level 100, right associativity).

(** [np.random.randint(n)] raises [ValueError] unless [0 < n]. *)
Definition np_random_randint (n : Z) : M Z :=
  if bool_decide (0 < n) then with_rng (fun g => randint g n)
  else raise ValueError.

(** ** class StyleWindow *)

Variable args : Args.

(* line 105, the argument of [cv2.imshow]: the style resized to
   [args.style_size] squared and converted to BGR *)
Definition preview (img : Img) : Res Img :=
  match cv2_resize img (style_size args, style_size args) with
  | Ok resized => cv2_cvtColor resized COLOR_RGB2BGR
  | Raise e => Raise e
  end.

Definition show_style (window : string) (style_rgb : option Img) : M unit :=
  match style_rgb with
  | Some img =>
      bgr <- lift (preview img) ;;
      emit (ImShow window bgr)
  | None => raise CvError
  end.

(* [self.style_rgbs[style_idx] = img] *)
Definition store_style (style_idx : Z) (img : Img) : M unit :=
  fun w => match py_setitem (style_rgbs (self w)) style_idx (Some img) with
           | Some rgbs => (Ok tt, update (with_style_rgbs rgbs) w)
           | None => (Raise IndexError, w)
           end.

(** [set_style], lines 78-81: which catalog entry. *)
Definition select_idx (idx_arg : option Z) (random_arg : bool) : M unit :=
  match idx_arg with
  | Some i => modify (with_idx i)
  | None => mret tt
  end ;;
  if random_arg then
    imgs <- gets style_imgs ;;
    r <- np_random_randint (Z.of_nat (length imgs)) ;;
    modify (with_idx r)
  else mret tt.

(** [set_style], lines 83-85: load it into the slot and show it. *)
Definition load_style (style_idx : Z) (window : string) : M unit :=
  imgs <- gets style_imgs ;;
  i <- getattr idx "idx" ;;
  style_file <- from_option (py_getitem imgs i) IndexError ;;
  resize <- gets img_size ;;
  crop <- gets crop_size ;;
  img <- lift (get_img_crop style_file resize crop) ;;
  store_style style_idx img ;;
  rgbs <- gets style_rgbs ;;
  shown <- from_option (py_getitem rgbs style_idx) IndexError ;;
  show_style window shown.

Definition set_style (idx_arg : option Z) (random_arg : bool)
    (style_idx : Z) (window : string) : M unit :=
  select_idx idx_arg random_arg ;;
  load_style style_idx window.

Definition set_idx (i : Z) : M unit :=
  set_style (Some i) false 0 "Style Controls".

Definition set_size (size : Z) : M unit :=
  c <- gets crop_size ;;
  modify (with_img_size (Z.max size c)) ;;
  set_style None false 0 "Style Controls".

Definition set_crop_size (crop : Z) : M unit :=
  s <- gets img_size ;;
  modify (with_crop_size (Z.min crop s)) ;;
  set_style None false 0 "Style Controls".

Definition set_scale (v : Z) : M unit :=
  modify (with_scale (PFloat (truediv v 100))).

Definition set_alpha (v : Z) : M unit :=
  modify (with_alpha (PFloat (truediv v 100))).

Definition set_interp (weight : Z) : M unit :=
  modify (with_interp_weight (truediv weight 100)).

(** [StyleWindow.__init__]: the attributes assigned first, then the
    control panel, then the first random style (and the second one when
    interpolating). *)
Definition new_StyleWindow (imgs : list string) (size : Z) (sc al : pynum)
    : StyleWindow :=
  {| style_imgs := imgs; style_rgbs := [None; None];
     img_size := size; crop_size := 256; scale := sc; alpha := al;
     idx := None; interp_weight := None; style_rgb := None |}.

(* [int(scale*100)] *)
Definition int_times_100 (sc : pynum) : Res Z :=
  match sc with
  | PInt z => Ok (z * 100)
  | PFloat x => int_mul x 100
  end.

Definition StyleWindow_init (path : string) (size : Z) (sc al : pynum)
    (interp : bool) : M unit :=
  files <- lift (get_files path) ;;
  modify (fun _ => new_StyleWindow files size sc al) ;;
  emit (NamedWindow "Style Controls") ;;
  imgs <- gets style_imgs ;;
  (if bool_decide (1 < Z.of_nat (length imgs)) then
     emit (CreateTrackbar "index" "Style Controls" 0
             (Z.of_nat (length imgs) - 1) cb_set_idx)
   else mret tt) ;;
  emit (CreateTrackbar "alpha" "Style Controls" 100 100 cb_set_alpha) ;;
  emit (CreateTrackbar "size" "Style Controls" size 2048 cb_set_size) ;;
  emit (CreateTrackbar "crop size" "Style Controls" 256 2048
          cb_set_crop_size) ;;
  position <- lift (int_times_100 sc) ;;
  emit (CreateTrackbar "scale" "Style Controls" position 200 cb_set_scale) ;;
  set_style None true 0 "Style Controls" ;;
  if interp then
    emit (NamedWindow "style2") ;;
    modify (with_interp_weight (float_of_Z 1)) ;;
    emit (CreateTrackbar "interpolation" "Style Controls" 100 100
            cb_set_interp) ;;
    set_style None true 1 "style2"
  else mret tt.

(** ** main *)

(** What one pass of the loop receives from outside: the camera's answer
    to [cap.read()], the trackbar moves delivered while [cv2.waitKey]
    runs, and the key code [cv2.waitKey] returns. *)
Record Tick := {
  cam : option Img;
  ui : list (Callback * Z);
  key : Z;
}.

Definition run_callback (cb : Callback) (v : Z) : M unit :=
  match cb with
  | cb_set_idx => set_idx v
  | cb_set_alpha => set_alpha v
  | cb_set_size => set_size v
  | cb_set_crop_size => set_crop_size v
  | cb_set_scale => set_scale v
  | cb_set_interp => set_interp v
  end.

(* HighGUI prints an exception that a trackbar callback raises and goes on *)
Fixpoint run_ui (moves : list (Callback * Z)) : M unit :=
  match moves with
  | [] => mret tt
  | (cb, v) :: rest => swallow (run_callback cb v) ;; run_ui rest
  end.

Definition cv2_waitKey (t : Tick) : M Z :=
  run_ui (ui t) ;; mret (key t).

(* the literal [0.5] *)
Definition sigma : float := truediv 1 2.

(** Lines 147-156: the content image of this frame. *)
Definition content_stage (frame : Img) (count : Z) : M Img :=
  sc <- gets scale ;;
  frame_resize <- lift (cv2_resize_by frame sc sc) ;;
  frame_resize <-
    (if noise args then
       n <- with_rng (fun g => randint_array g (shape frame_resize)) ;;
       mret (gaussian_filter n sigma)
     else mret frame_resize) ;;
  emit (PrintFrame count (shape frame) (shape frame_resize)) ;;
  lift (cv2_cvtColor frame_resize COLOR_BGR2RGB).

(** Lines 158-159: the periodic random reload. *)
Definition auto_reload (count : Z) : M unit :=
  if bool_decide (0 < random args) && (count mod random args =? 0) then
    set_style None true 0 "Style Controls"
  else mret tt.

(** Line 162.  The arguments are evaluated first: the attribute
    [style_window.style_rgb], then the name [content_img], which no
    assignment in the module binds. *)
Definition recolor_style : M unit :=
  s <- getattr style_rgb "style_rgb" ;;
  c <- raise (A:=Img) (NameError "content_img") ;;
  modify (with_style_rgb (preserve_colors s c)).

(** Lines 164-172: the call to the engine. *)
Definition infer (image_rgb : Img) : M Img :=
  if negb (interpolate args) then
    rgbs <- gets style_rgbs ;;
    s0 <- from_option (py_getitem rgbs 0) IndexError ;;
    a <- gets alpha ;;
    emit (CallPredict image_rgb s0 a) ;;
    lift (predict image_rgb s0 a)
  else
    w <- getattr interp_weight "interp_weight" ;;
    w' <- getattr interp_weight "interp_weight" ;;
    let interp_weights := [w; rsub 1 w'] in
    rgbs <- gets style_rgbs ;;
    a <- gets alpha ;;
    emit (CallPredictInterpolate image_rgb rgbs interp_weights a) ;;
    lift (predict_interpolate image_rgb rgbs interp_weights a).

(** Lines 175-178: style and output side by side. *)
Definition stitch (stylized_rgb : Img) : M Img :=
  if concat args && negb (interpolate args) then
    rgbs <- gets style_rgbs ;;
    s0 <- from_option (py_getitem rgbs 0) IndexError ;;
    s <- from_option s0 CvError ;;
    let h := (shape stylized_rgb).1.1 in
    style_rgb_resized <- lift (cv2_resize s (h, h)) ;;
    lift (np_hstack [style_rgb_resized; stylized_rgb])
  else mret stylized_rgb.

(** Lines 180-188: the output sink.  [out_shape] is read only when
    [args.video_out] is set, the case in which [main] has bound it. *)
Definition output (out_shape : Z * Z) (stylized_rgb : Img) : M unit :=
  stylized_bgr <- lift (cv2_cvtColor stylized_rgb COLOR_RGB2BGR) ;;
  stylized_bgr <-
    match video_out args with
    | Some _ =>
        resized <- lift (cv2_resize stylized_bgr out_shape) ;;
        emit (VideoWrite resized) ;; mret resized
    | None => mret stylized_bgr
    end ;;
  emit (ImShow "AdaIN Style" stylized_bgr) ;;
  emit FpsUpdate.

Inductive LoopCtl :=
| Break
| Next (keep_colors : bool) (count : Z).

(** Lines 190-199: [ord('r')] is 114, [ord('c')] 99, [ord('q')] 113. *)
Definition handle_key (t : Tick) (keep_colors : bool) (count : Z)
    : M LoopCtl :=
  k <- cv2_waitKey t ;;
  if Z.land k 255 =? 114 then
    set_style None true 0 "Style Controls" ;;
    (if interpolate args then set_style None true 1 "style2"
     else mret tt) ;;
    mret (Next keep_colors count)
  else if Z.land k 255 =? 99 then
    emit (PrintKeepColors (negb keep_colors)) ;;
    mret (Next (negb keep_colors) count)
  else if Z.land k 255 =? 113 then mret Break
  else mret (Next keep_colors count).

(** Lines 147-162: everything a pass does before it calls the engine. *)
Definition prepare (frame : Img) (keep_colors : bool) (count : Z) : M Img :=
  image_rgb <- content_stage frame count ;;
  auto_reload count ;;
  (if keep_colors then recolor_style else mret tt) ;;
  mret image_rgb.

(** One pass of [while(True)]. *)
Definition body (out_shape : Z * Z) (t : Tick) (keep_colors : bool)
    (count : Z) : M LoopCtl :=
  match cam t with
  | Some frame =>
      let count := count + 1 in
      image_rgb <- prepare frame keep_colors count ;;
      stylized_rgb <- infer image_rgb ;;
      stylized_rgb <- stitch stylized_rgb ;;
      output out_shape stylized_rgb ;;
      handle_key t keep_colors count
  | None => mret Break
  end.

(** The loop over the ticks that are given: [Stopped] when it left through
    a [break], [Running] with the loop's two variables when the ticks ran
    out first. *)
Inductive Exit :=
| Stopped
| Running (keep_colors : bool) (count : Z).

Fixpoint loop (out_shape : Z * Z) (ticks : list Tick) (keep_colors : bool)
    (count : Z) : M Exit :=
  match ticks with
  | [] => mret (Running keep_colors count)
  | t :: rest =>
      c <- body out_shape t keep_colors count ;;
      match c with
      | Break => mret Stopped
      | Next keep_colors' count' => loop out_shape rest keep_colors' count'
      end
  end.

(** Lines 130-133: the size handed to [cv2.VideoWriter], from the shape
    of the resized sample frame. *)
Definition video_out_shape (img_shape : Z * Z * Z) : Z * Z :=
  if concat args then (img_shape.1.2 + img_shape.1.1, img_shape.1.1)
  else (img_shape.1.2, img_shape.1.1).

(** Lines 113-139: the model, the control panel, the camera, the sample
    frame and the video writer. *)
Definition startup (first : option Img) : M (Z * Z) :=
  emit (LoadModel (checkpoint args) (device args)) ;;
  StyleWindow_init (style_path args) (style_size args) (arg_scale args)
    (arg_alpha args) (interpolate args) ;;
  emit (CapStart (video_source args) (width args) (height args)) ;;
  frame <- from_option first CvError ;;
  frame_resize <- lift (cv2_resize_by frame (arg_scale args)
                          (arg_scale args)) ;;
  let out_shape := video_out_shape (shape frame_resize) in
  match video_out args with
  | Some path =>
      emit (PrintOutShape out_shape) ;;
      emit (VideoWriterOpen path (fps args) out_shape)
  | None => mret tt
  end ;;
  emit FpsStart ;;
  mret out_shape.

(** Lines 203-212. *)
Definition shutdown : M unit :=
  emit FpsStop ;;
  emit PrintInfo ;;
  emit PrintInfo ;;
  emit CapStop ;;
  match video_out args with
  | Some _ => emit VideoRelease
  | None => mret tt
  end ;;
  emit DestroyAllWindows.

Definition main (first : option Img) (ticks : list Tick) : M Exit :=
  out_shape <- startup first ;;
  e <- loop out_shape ticks (arg_keep_colors args) 0 ;;
  match e with
  | Running keep_colors count => mret (Running keep_colors count)
  | Stopped => shutdown ;; mret Stopped
  end.

(** ** Sequences of calls and readings of a trace *)

Inductive SizeCall :=
| SetSize (v : Z)
| SetCropSize (v : Z).

Definition size_call (c : SizeCall) : M unit :=
  match c with
  | SetSize v => set_size v
  | SetCropSize v => set_crop_size v
  end.

(** The result and the state after each call of a sequence.  A call that
    raised leaves the object as the exception found it, and the next call
    runs on that object. *)
Fixpoint run_calls (calls : list SizeCall) (w : World)
    : list (Res unit * World) :=
  match calls with
  | [] => []
  | c :: rest => let rw := size_call c w in rw :: run_calls rest rw.2
  end.

(** What [set_style()] needs to return: the stored index names a catalog
    entry, [get_img_crop] loads it at the sizes now stored, there is a
    slot 0 to put the image into, and the calls of [show_style] accept the
    image. *)
Definition reloads (w : World) : Prop :=
  exists i file img bgr,
    idx (self w) = Some i /\
    py_getitem (style_imgs (self w)) i = Some file /\
    get_img_crop file (img_size (self w)) (crop_size (self w)) = Ok img /\
    style_rgbs (self w) <> [] /\
    preview img = Ok bgr.

(** [maintains R m]: whatever the state and however [m] ends, the state
    after [m] is related by [R] to the state before it. *)
Definition maintains {A} (R : World -> World -> Prop) (m : M A) : Prop :=
  forall w, R w (m w).2.

(** The trace grows by events that satisfy [P]. *)
Definition appends (P : Event -> Prop) (w w' : World) : Prop :=
  exists evs, trace w' = trace w ++ evs /\ Forall P evs.

(** The reading [f] of the object stays what it was. *)
Definition same {A} (f : StyleWindow -> A) (w w' : World) : Prop :=
  f (self w') = f (self w).

(* what a style reload puts on the trace *)
Definition style_event (e : Event) : Prop :=
  match e with
  | ImShow win _ => win = "Style Controls" \/ win = "style2"
  | _ => False
  end.

(* the calls to the engine *)
Definition engine_event (e : Event) : Prop :=
  match e with
  | CallPredict _ _ _ | CallPredictInterpolate _ _ _ _ => True
  | _ => False
  end.

(* what a pass puts on the trace before it calls the engine *)
Definition prepare_event (e : Event) : Prop :=
  match e with
  | ImShow win _ => win = "Style Controls" \/ win = "style2"
  | PrintFrame _ _ _ => True
  | _ => False
  end.

(* what a pass of the loop puts on the trace *)
Definition pass_event (out_shape : Z * Z) (e : Event) : Prop :=
  match e with
  | ImShow _ _ | PrintFrame _ _ _ | PrintKeepColors _ | FpsUpdate
  | CallPredict _ _ _ | CallPredictInterpolate _ _ _ _ => True
  | VideoWrite img => exists src, cv2_resize src out_shape = Ok img
  | _ => False
  end.

(* how many styles the catalog lists; none when listing it raises *)
Definition catalog_size (path : string) : nat :=
  match get_files path with
  | Ok imgs => length imgs
  | Raise _ => 0%nat
  end.

(* what the start of [main] puts on the trace before the video writer *)
Definition panel_event (n_styles : nat) (e : Event) : Prop :=
  match e with
  | LoadModel _ _ | NamedWindow _ | ImShow _ _ | CapStart _ _ _ => True
  | CreateTrackbar name _ _ _ _ => name = "index" -> (1 < n_styles)%nat
  | _ => False
  end.

(* what [startup] puts on the trace when it reaches the video writer *)
Definition opening (out_shape : Z * Z) : list Event :=
  match video_out args with
  | Some path =>
      [PrintOutShape out_shape; VideoWriterOpen path (fps args) out_shape]
  | None => []
  end.

(* what the end of [main] puts on the trace *)
Definition shutdown_event (e : Event) : Prop :=
  match e with
  | FpsStop | PrintInfo | CapStop | VideoRelease | DestroyAllWindows => True
  | _ => False
  end.

(* frames shown in the main window *)
Definition shown_frames (tr : list Event) : list Img :=
  omap (fun e => match e with
                 | ImShow win img =>
                     if String.eqb win "AdaIN Style" then Some img else None
                 | _ => None
                 end) tr.

(* frames appended to the video file *)
Definition video_writes (tr : list Event) : list Img :=
  omap (fun e => match e with VideoWrite img => Some img | _ => None end) tr.

(* sizes with which a video writer was created *)
Definition writer_opens (tr : list Event) : list (Z * Z) :=
  omap (fun e => match e with
                 | VideoWriterOpen _ _ size => Some size
                 | _ => None
                 end) tr.

(* calls to the engine *)
Definition engine_calls (tr : list Event) : list Event :=
  omap (fun e => match e with
                 | CallPredict _ _ _ | CallPredictInterpolate _ _ _ _ => Some e
                 | _ => None
                 end) tr.

(* trackbars created under the name [index] *)
Definition index_trackbars (tr : list Event) : list Event :=
  omap (fun e => match e with
                 | CreateTrackbar name _ _ _ _ =>
                     if String.eqb name "index" then Some e else None
                 | _ => None
                 end) tr.

(** ** Further readings of a run *)

(* what [shutdown] puts on the trace *)
Definition shutdown_trace : list Event :=
  [FpsStop; PrintInfo; PrintInfo; CapStop]
  ++ match video_out args with
     | Some _ => [VideoRelease]
     | None => []
     end
  ++ [DestroyAllWindows].

(* what the key handling of a pass puts on the trace *)
Definition control_event (e : Event) : Prop :=
  match e with
  | ImShow win _ => win = "Style Controls" \/ win = "style2"
  | PrintKeepColors _ => True
  | _ => False
  end.

(* what [startup] puts on the trace *)
Definition startup_event (e : Event) : Prop :=
  match e with
  | LoadModel _ _ | NamedWindow _ | CreateTrackbar _ _ _ _ _
  | CapStart _ _ _ | PrintOutShape _ | VideoWriterOpen _ _ _ | FpsStart => True
  | ImShow win _ => win = "Style Controls" \/ win = "style2"
  | _ => False
  end.

(* an event that touches neither the main window nor the video file *)
Definition off_sink (e : Event) : Prop :=
  match e with
  | ImShow win _ => win = "Style Controls" \/ win = "style2"
  | VideoWrite _ => False
  | _ => True
  end.

(* an event that does not concern a video file *)
Definition no_video_event (e : Event) : Prop :=
  match e with
  | VideoWriterOpen _ _ _ | VideoWrite _ | VideoRelease => False
  | _ => True
  end.

(** The trace grows by events among which the frames shown in the main
    window are the frames written to the video file, in that order. *)
Definition sink_synced (w w' : World) : Prop :=
  exists evs, trace w' = trace w ++ evs /\
              shown_frames evs = video_writes evs.

(** The object and the generator are what they were. *)
Definition untouched (w w' : World) : Prop :=
  self w' = self w /\ rng w' = rng w.

(** A window as [__init__] leaves it when it returns: the stored index
    names a catalog entry, there are two slots, and the first is loaded. *)
Definition constructed (s : StyleWindow) : Prop :=
  (exists i file, idx s = Some i /\ py_getitem (style_imgs s) i = Some file) /\
  length (style_rgbs s) = 2%nat /\
  (exists img, style_rgbs s !! 0%nat = Some (Some img)).

(* the events of [evs] put on the trace one after the other *)
Definition pushes (evs : list Event) (w : World) : World :=
  fold_left (fun w0 e => push e w0) evs w.

(* lines 52-63: the trackbars [__init__] creates before it evaluates
   [int(scale*100)] *)
Definition init_trackbars (imgs : list string) (size : Z) : list Event :=
  (if bool_decide (1 < Z.of_nat (length imgs)) then
     [CreateTrackbar "index" "Style Controls" 0
        (Z.of_nat (length imgs) - 1) cb_set_idx]
   else [])
  ++ [CreateTrackbar "alpha" "Style Controls" 100 100 cb_set_alpha;
      CreateTrackbar "size" "Style Controls" size 2048 cb_set_size;
      CreateTrackbar "crop size" "Style Controls" 256 2048 cb_set_crop_size].

End Model.

Notation "x <- m ;; k" := (mbind m (fun x => k))
  (at level 100, m at next level, right associativity).
Notation "m ;; k" := (mbind m (fun _ => k))
  (at level 100, right associativity).

(** ** A test bench

    Concrete collaborators on which the model runs: rationals for floats,
    images that carry their shape and a label, OpenCV calls that reject an
    image without pixels and a size that is not positive, a generator that
    replays a list of draws, a catalog with one damaged file, and an engine
    that echoes its content input and fails on the content labelled 13. *)
Module Bench.

#[export] Instance bench_float : PyFloat := {|
  float := Q;
  float_of_Z := inject_Z;
  truediv a b := Qred (inject_Z a / inject_Z b)%Q;
  rsub a x := Qred (inject_Z a - x)%Q;
  int_mul x k :=
    Ok (Z.quot (Qnum (x * inject_Z k)%Q) (Z.pos (Qden (x * inject_Z k)%Q)));
|}.

Record Pic := {
  pshape : Z * Z * Z;
  label : Z;
}.

(* [round(n * s)] *)
Definition bench_scaled (n : Z) (s : pynum) : Z :=
  match s with
  | PInt z => n * z
  | PFloat q => Qfloor (inject_Z n * q + (1 # 2))%Q
  end.

(* no rows or no columns *)
Definition bench_empty (s : Z * Z * Z) : bool :=
  (s.1.1 <=? 0) || (s.1.2 <=? 0).

Definition bench_resize (src : Pic) (dsize : Z * Z) : Res Pic :=
  if bench_empty (pshape src) || (dsize.1 <=? 0) || (dsize.2 <=? 0)
  then Raise CvError
  else Ok {| pshape := (dsize.2, dsize.1, (pshape src).2);
             label := label src |}.

Definition bench_scaled_shape (s : Z * Z * Z) (fx fy : pynum) : Z * Z * Z :=
  (bench_scaled s.1.1 fy, bench_scaled s.1.2 fx, s.2).

Definition bench_resize_by (src : Pic) (fx fy : pynum) : Res Pic :=
  if bench_empty (pshape src)
     || bench_empty (bench_scaled_shape (pshape src) fx fy)
  then Raise CvError
  else Ok {| pshape := bench_scaled_shape (pshape src) fx fy;
             label := label src |}.

Definition bench_cvtColor (src : Pic) (code : ColorCode) : Res Pic :=
  if bench_empty (pshape src) then Raise CvError else Ok src.

(* side by side, for images of one height: the widths added up, the label
   of the last *)
Definition bench_hstack (imgs : list Pic) : Res Pic :=
  match imgs with
  | [] => Raise ValueError
  | a :: rest =>
      if forallb (fun b => (pshape b).1.1 =? (pshape a).1.1) rest then
        Ok {| pshape := ((pshape a).1.1,
                         foldr (fun b n => (pshape b).1.2 + n) 0 imgs,
                         3);
              label := foldr (fun b _ => label b) 0 (reverse imgs) |}
      else Raise ValueError
  end.

Definition bench_shape_resize (src : Pic) (w h : Z) (img : Pic) :
  bench_resize src (w, h) = Ok img -> pshape img = (h, w, (pshape src).2).
Proof.
  unfold bench_resize. destruct (_ || _); [discriminate|].
  now intros [= <-].
Qed.

Definition bench_shape_resize_by (src : Pic) (fx fy : pynum) (img : Pic) :
  bench_resize_by src fx fy = Ok img ->
  pshape img =
  (bench_scaled (pshape src).1.1 fy, bench_scaled (pshape src).1.2 fx,
   (pshape src).2).
Proof.
  unfold bench_resize_by. destruct (_ || _); [discriminate|].
  now intros [= <-].
Qed.

Definition bench_resize_by_raises (src src' : Pic) (fx fy : pynum) (e : Exn) :
  pshape src = pshape src' ->
  bench_resize_by src fx fy = Raise e -> bench_resize_by src' fx fy = Raise e.
Proof.
  unfold bench_resize_by. intros <-. now destruct (_ || _).
Qed.

#[export] Instance bench_imaging : Imaging := {|
  Img := Pic;
  shape := pshape;
  scaled := bench_scaled;
  cv2_resize := bench_resize;
  cv2_resize_by := bench_resize_by;
  cv2_cvtColor := bench_cvtColor;
  np_hstack := bench_hstack;
  gaussian_filter src _ := src;
  shape_resize := bench_shape_resize;
  shape_resize_by := bench_shape_resize_by;
  resize_by_raises := bench_resize_by_raises;
|}.

Definition bench_randint (g : list Z) (n : Z) : Z * list Z :=
  (hd 0 g mod n, tl g).

#[export] Instance bench_random : NumpyRandom := {|
  Rng := list Z;
  randint := bench_randint;
  randint_array g s := ({| pshape := s; label := hd 0 g mod 256 |}, tl g);
  randint_range g n := Z.mod_pos_bound (hd 0 g) n;
|}.

Definition first_code (file : string) : Z :=
  match file with
  | String c _ => Z.of_N (Ascii.N_of_ascii c)
  | EmptyString => 0
  end.

#[export] Instance bench_utils : Utils := {|
  get_files path :=
    if String.eqb path "one" then Ok ["a.jpg"]
    else if String.eqb path "two" then Ok ["a.jpg"; "b.jpg"]
    else if String.eqb path "damaged" then Ok ["a.jpg"; "broken.jpg"]
    else Raise (ExternalError "EmptyCatalogError");
  get_img_crop file resize crop :=
    if String.eqb file "broken.jpg" then Raise (ExternalError "ImageLoadError")
    else Ok {| pshape := (crop, crop, 3);
               label := 10000 * first_code file + resize |};
  preserve_colors style content := style;
|}.

#[export] Instance bench_engine : Engine := {|
  predict content style a :=
    if label content =? 13 then Raise (ExternalError "engine") else Ok content;
  predict_interpolate content styles weights a :=
    if label content =? 13 then Raise (ExternalError "engine") else Ok content;
|}.

(** Command lines: two styles, no video, no interpolation; then variants. *)
Definition bench_args : Args := {|
  video_source := 0; checkpoint := "ckpt"; style_path := "two";
  width := None; height := None; video_out := None; fps := 10;
  arg_scale := PInt 1; arg_keep_colors := false; device := "/gpu:0";
  style_size := 512; arg_alpha := PInt 1; concat := false;
  interpolate := false; noise := false; random := 0;
|}.

Definition with_path (path : string) (a : Args) : Args := {|
  video_source := video_source a; checkpoint := checkpoint a;
  style_path := path; width := width a; height := height a;
  video_out := video_out a; fps := fps a; arg_scale := arg_scale a;
  arg_keep_colors := arg_keep_colors a; device := device a;
  style_size := style_size a; arg_alpha := arg_alpha a; concat := concat a;
  interpolate := interpolate a; noise := noise a; random := random a;
|}.

Definition damaged_args : Args := with_path "damaged" bench_args.
Definition single_args : Args := with_path "one" bench_args.

Definition keep_colors_args : Args := {|
  video_source := 0; checkpoint := "ckpt"; style_path := "two";
  width := None; height := None; video_out := None; fps := 10;
  arg_scale := PInt 1; arg_keep_colors := true; device := "/gpu:0";
  style_size := 512; arg_alpha := PInt 1; concat := false;
  interpolate := false; noise := false; random := 0;
|}.

Definition video_args : Args := {|
  video_source := 0; checkpoint := "ckpt"; style_path := "two";
  width := None; height := None; video_out := Some "out.avi"; fps := 10;
  arg_scale := PFloat (1 # 2)%Q; arg_keep_colors := false; device := "/gpu:0";
  style_size := 512; arg_alpha := PInt 1; concat := true;
  interpolate := false; noise := false; random := 0;
|}.

Definition interp_args : Args := {|
  video_source := 0; checkpoint := "ckpt"; style_path := "two";
  width := None; height := None; video_out := None; fps := 10;
  arg_scale := PInt 1; arg_keep_colors := false; device := "/gpu:0";
  style_size := 512; arg_alpha := PInt 1; concat := false;
  interpolate := true; noise := false; random := 0;
|}.

Definition noise_args : Args := {|
  video_source := 0; checkpoint := "ckpt"; style_path := "two";
  width := None; height := None; video_out := None; fps := 10;
  arg_scale := PInt 1; arg_keep_colors := false; device := "/gpu:0";
  style_size := 512; arg_alpha := PInt 1; concat := false;
  interpolate := false; noise := true; random := 0;
|}.

Definition camera_frame (l : Z) : Pic :=
  {| pshape := (480, 640, 3); label := l |}.

(* a tick with a frame, no trackbar move, and no key pressed *)
Definition quiet_tick (l : Z) : Tick :=
  {| cam := Some (camera_frame l); ui := []; key := -1 |}.

(* the process before [main] runs, with the generator's draws to come *)
Definition seeded (draws : list Z) : World :=
  {| self := new_StyleWindow [] 0 (PInt 0) (PInt 0); rng := draws;
     trace := [] |}.

(* a constructed [StyleWindow] *)
Definition window_of (a : Args) (draws : list Z) : World :=
  (StyleWindow_init a (style_path a) (style_size a) (arg_scale a)
     (arg_alpha a) (interpolate a) (seeded draws)).2.

(* the catalog with the damaged file: the first style drawn is the sound
   one, then the index trackbar is moved to the damaged one *)
Definition damaged_window : World :=
  (set_idx damaged_args 1 (window_of damaged_args [0])).2.

(* ten frames, the fourth of which the engine fails on *)
Definition frames_before : list Tick := map quiet_tick [10; 11; 12].
Definition frame_bad : Tick := quiet_tick 13.
Definition frames_after : list Tick := map quiet_tick [14; 15; 16; 17; 18; 19].
Definition ten_frames : list Tick :=
  frames_before ++ frame_bad :: frames_after.

(* that session: when its loop starts, when the failing frame arrives,
   when the engine is about to be called on it, and when it has failed *)
Definition session_start : World :=
  (startup bench_args (Some (camera_frame 1)) (seeded [0])).2.
Definition session_shape : Z * Z :=
  video_out_shape bench_args (shape (camera_frame 1)).
Definition session_before_bad : World :=
  (loop bench_args session_shape frames_before false 0 session_start).2.
Definition session_prepared : World :=
  (prepare bench_args (camera_frame 13) false (3 + 1) session_before_bad).2.
Definition session_failed : World :=
  (infer bench_args (camera_frame 13) session_prepared).2.

(* a recording session in which the scale trackbar moves and [r] is hit *)
Definition video_ticks : list Tick :=
  [ quiet_tick 1;
    {| cam := Some (camera_frame 2); ui := [(cb_set_scale, 150)]; key := -1 |};
    {| cam := Some (camera_frame 3); ui := [(cb_set_size, 300)]; key := 114 |};
    quiet_tick 4;
    {| cam := Some (camera_frame 5); ui := []; key := 113 |} ].

(** Scenes for the further facts. *)

(* a style directory without images *)
Definition empty_args : Args := with_path "nothing here" bench_args.

(* interpolating: the second slot reloaded from the first catalog entry,
   then the size trackbar moved to 300 *)
Definition second_loaded : World :=
  (set_style interp_args None true 1 "style2"
     (window_of interp_args [0; 1; 0])).2.
Definition second_resized : World :=
  (size_call interp_args (SetSize 300) second_loaded).2.

(* ticks with a key: [c], [q], and [q] with a modifier bit set *)
Definition c_tick : Tick :=
  {| cam := Some (camera_frame 20); ui := []; key := 99 |}.
Definition q_tick : Tick :=
  {| cam := Some (camera_frame 21); ui := []; key := 113 |}.
Definition q_tick_high : Tick :=
  {| cam := Some (camera_frame 21); ui := []; key := 1048689 |}.

(* the session after the pass in which [c] was pressed *)
Definition after_c : World :=
  (body bench_args session_shape c_tick false 0 session_start).2.

(* the session after the alpha trackbar went to 80 and a quiet pass *)
Definition alpha_pass : World :=
  (body bench_args session_shape (quiet_tick 7) false 0
     (set_alpha 80 session_start).2).2.

(* the sample frame of the recording session, scaled by 0.5 *)
Definition sample_resized : Pic := {| pshape := (240, 320, 3); label := 1 |}.

End Bench.

(** * Facts about the script *)

Section Facts.
Context `{PF : PyFloat} `{IM : !Imaging} `{NR : !NumpyRandom}
        `{UT : !Utils} `{EN : !Engine}.
Variable args : Args.

(** ** Running the monad *)

Lemma run_bind {A B} (m : M A) (k : A -> M B) (w : World) :
  mbind m k w =
  match m w with
  | (Ok a, w') => k a w'
  | (Raise e, w') => (Raise e, w')
  end.
Proof. reflexivity. Qed.

(* a run is its result paired with its final state *)
Lemma run_result {A} (m : M A) (w : World) (r : Res A) :
  (m w).1 = r -> m w = (r, (m w).2).
Proof. intros <-. now destruct (m w). Qed.

Lemma run_bind_ok {A B} (m : M A) (k : A -> M B) w a w' :
  m w = (Ok a, w') -> mbind m k w = k a w'.
Proof. intros H. unfold mbind. now rewrite H. Qed.

Lemma run_bind_raise {A B} (m : M A) (k : A -> M B) w e w' :
  m w = (Raise e, w') -> mbind m k w = (Raise e, w').
Proof. intros H. unfold mbind. now rewrite H. Qed.

(** ** Relations that every step of an action maintains

    For a preorder [R] it is enough that each primitive step of an action
    maintains [R]. *)

Section Maintains.
Context (R : World -> World -> Prop) `{!PreOrder R}.

Lemma maintains_still {A} (m : M A) :
  (forall w, (m w).2 = w) -> maintains R m.
Proof. intros H w. rewrite H. reflexivity. Qed.

Lemma maintains_mret {A} (a : A) : maintains R (mret a).
Proof. now apply maintains_still. Qed.

Lemma maintains_raise {A} e : maintains R (raise (A:=A) e).
Proof. now apply maintains_still. Qed.

Lemma maintains_lift {A} (r : Res A) : maintains R (lift r).
Proof. now apply maintains_still. Qed.

Lemma maintains_gets {A} (f : StyleWindow -> A) : maintains R (gets f).
Proof. now apply maintains_still. Qed.

Lemma maintains_getattr {A} (f : StyleWindow -> option A) name :
  maintains R (getattr f name).
Proof.
  apply maintains_still. intros w. unfold getattr. now destruct (f (self w)).
Qed.

Lemma maintains_from_option {A} (o : option A) e :
  maintains R (from_option o e).
Proof. destruct o; [apply maintains_mret | apply maintains_raise]. Qed.

Lemma maintains_bind {A B} (m : M A) (k : A -> M B) :
  maintains R m -> (forall a, maintains R (k a)) -> maintains R (mbind m k).
Proof.
  intros Hm Hk w. specialize (Hm w). rewrite run_bind.
  destruct (m w) as [[a|e] w1]; simpl in *; [|done].
  etransitivity; [exact Hm | apply Hk].
Qed.

(* after a collaborator's call, what follows runs on what it returned *)
Lemma maintains_bind_lift {A B} (r : Res A) (k : A -> M B) :
  (forall a, r = Ok a -> maintains R (k a)) -> maintains R (mbind (lift r) k).
Proof.
  intros Hk w. unfold mbind, lift. destruct r as [a|e]; [|reflexivity].
  now apply Hk.
Qed.

Lemma maintains_swallow (m : M unit) : maintains R m -> maintains R (swallow m).
Proof. intros Hm w. exact (Hm w). Qed.

End Maintains.

#[local] Instance appends_preorder P : PreOrder (appends P).
Proof.
  split.
  - intros w. exists []. now rewrite app_nil_r.
  - intros w1 w2 w3 (e1 & H1 & F1) (e2 & H2 & F2).
    exists (e1 ++ e2). rewrite H2, H1, app_assoc. split; [done|].
    now apply Forall_app.
Qed.

#[local] Instance same_preorder {A} (f : StyleWindow -> A) : PreOrder (same f).
Proof.
  split.
  - intros w. reflexivity.
  - intros w1 w2 w3 H1 H2. unfold same in *. congruence.
Qed.

Lemma appends_quiet {A} P (m : M A) :
  (forall w, trace (m w).2 = trace w) -> maintains (appends P) m.
Proof. intros H w. exists []. now rewrite H, app_nil_r. Qed.

Lemma appends_emit P e : P e -> maintains (appends P) (emit e).
Proof. intros H w. exists [e]. split; [reflexivity | auto]. Qed.

Lemma appends_modify P f : maintains (appends P) (modify f).
Proof. now apply appends_quiet. Qed.

Lemma appends_with_rng {A} P (f : Rng -> A * Rng) :
  maintains (appends P) (with_rng f).
Proof.
  apply appends_quiet. intros w. unfold with_rng. now destruct (f (rng w)).
Qed.

Lemma appends_store_style P i img : maintains (appends P) (store_style i img).
Proof.
  apply appends_quiet. intros w. unfold store_style.
  now destruct (py_setitem _ _ _).
Qed.

Lemma appends_weaken {A} (P Q : Event -> Prop) (m : M A) :
  (forall e, P e -> Q e) -> maintains (appends P) m -> maintains (appends Q) m.
Proof.
  intros HPQ Hm w. destruct (Hm w) as (evs & H & F).
  exists evs. split; [done|]. eapply Forall_impl; eauto.
Qed.

Lemma same_emit {A} (f : StyleWindow -> A) e : maintains (same f) (emit e).
Proof. intros w. reflexivity. Qed.

Lemma same_with_rng {A B} (f : StyleWindow -> A) (g : Rng -> B * Rng) :
  maintains (same f) (with_rng g).
Proof. intros w. unfold with_rng, same. now destruct (g (rng w)). Qed.

Lemma same_modify {A} (f : StyleWindow -> A) g :
  (forall s, f (g s) = f s) -> maintains (same f) (modify g).
Proof. intros H w. apply H. Qed.

Lemma same_store_style {A} (f : StyleWindow -> A) i img :
  (forall rgbs s, py_setitem (style_rgbs s) i (Some img) = Some rgbs ->
                  f (with_style_rgbs rgbs s) = f s) ->
  maintains (same f) (store_style i img).
Proof.
  intros H w. unfold store_style, same.
  destruct (py_setitem _ _ _) eqn:E; simpl; [now apply H | done].
Qed.

(* one structural step; the primitive steps that change the state are left
   to the lemmas of the relation at hand *)
Ltac maintains_step :=
  lazymatch goal with
  | |- maintains _ (mret _) => refine (maintains_mret _ _)
  | |- maintains _ (raise _) => refine (maintains_raise _ _)
  | |- maintains _ (lift _) => refine (maintains_lift _ _)
  | |- maintains _ (gets _) => refine (maintains_gets _ _)
  | |- maintains _ (getattr _ _) => refine (maintains_getattr _ _ _)
  | |- maintains _ (from_option _ _) => refine (maintains_from_option _ _ _)
  | |- maintains _ (swallow _) => refine (maintains_swallow _ _ _)
  | |- maintains _ (mbind (lift _) _) =>
      refine (maintains_bind_lift _ _ _ _); intros ? ?
  | |- maintains _ (mbind _ _) => refine (maintains_bind _ _ _ _ _); [| intros ?]
  | |- maintains _ (if ?b then _ else _) => destruct b
  | |- maintains _ (match ?x with _ => _ end) => destruct x
  end.

Ltac appends_step :=
  lazymatch goal with
  | |- maintains _ (modify _) => apply appends_modify
  | |- maintains _ (with_rng _) => apply appends_with_rng
  | |- maintains _ (store_style _ _) => apply appends_store_style
  | |- maintains _ (emit _) => apply appends_emit
  end.

Ltac appends_auto := repeat first [maintains_step | appends_step].

Ltac same_step :=
  lazymatch goal with
  | |- maintains _ (emit _) => apply same_emit
  | |- maintains _ (with_rng _) => apply same_with_rng
  | |- maintains _ (modify _) => apply same_modify; intros; reflexivity
  | |- maintains _ (store_style _ _) =>
      apply same_store_style; intros; reflexivity
  end.

Ltac same_auto := repeat first [maintains_step | same_step].

Lemma appends_set_style P ia r si win :
  (forall img, P (ImShow win img)) ->
  maintains (appends P) (set_style args ia r si win).
Proof.
  intros HP. unfold set_style, select_idx, load_style, show_style,
    np_random_randint.
  appends_auto; apply HP.
Qed.

(** ** Python indexing *)

Lemma py_index_lt {A} (l : list A) i k :
  py_index l i = Some k -> (k < length l)%nat.
Proof.
  unfold py_index. repeat case_bool_decide; intros [= <-]; lia.
Qed.

Lemma py_index_length {A B} (l : list A) (l' : list B) i :
  length l = length l' -> py_index l i = py_index l' i.
Proof. intros H. unfold py_index. now rewrite H. Qed.

Lemma py_index_0 {A} (l : list A) k : py_index l 0 = Some k -> k = 0%nat.
Proof.
  unfold py_index. repeat case_bool_decide; intros [= <-]; lia.
Qed.

Lemma py_index_0_nonempty {A} (l : list A) :
  l <> [] -> py_index l 0 = Some 0%nat.
Proof.
  intros H. unfold py_index. destruct l as [|a l]; [done|].
  simpl length. rewrite bool_decide_true by lia. reflexivity.
Qed.

Lemma py_getitem_setitem {A} (l l' : list A) i x :
  py_setitem l i x = Some l' -> py_getitem l' i = Some x.
Proof.
  unfold py_setitem, py_getitem.
  destruct (py_index l i) as [k|] eqn:E; [|done]. intros [= <-].
  rewrite <- (py_index_length l) by now rewrite length_insert.
  rewrite E. apply list_lookup_insert_eq. eapply py_index_lt, E.
Qed.

Lemma py_setitem_twice {A} (l l' : list A) i x :
  py_setitem l i x = Some l' -> py_setitem l' i x = Some l'.
Proof.
  unfold py_setitem.
  destruct (py_index l i) as [k|] eqn:E; [|done]. intros [= <-].
  rewrite <- (py_index_length l) by now rewrite length_insert.
  rewrite E. now rewrite list_insert_insert_eq.
Qed.

Lemma py_setitem_0_other {A} (l l' : list A) x (k : nat) :
  py_setitem l 0 x = Some l' -> (0 < k)%nat -> l' !! k = l !! k.
Proof.
  unfold py_setitem.
  destruct (py_index l 0) as [j|] eqn:E; [|done]. intros [= <-] Hk.
  apply py_index_0 in E. subst j. apply list_lookup_insert_ne. lia.
Qed.

Lemma py_setitem_nonempty {A} (l l' : list A) i x :
  py_setitem l i x = Some l' -> l <> [] -> l' <> [].
Proof.
  unfold py_setitem. destruct (py_index l i); [|done]. intros [= <-] H.
  destruct l; [done|]. now destruct n.
Qed.

(** ** [set_style] step by step *)

Lemma load_style_run si win w :
  load_style args si win w =
  match idx (self w) with
  | None => (Raise (AttributeError "idx"), w)
  | Some i =>
      match py_getitem (style_imgs (self w)) i with
      | None => (Raise IndexError, w)
      | Some file =>
          match get_img_crop file (img_size (self w)) (crop_size (self w)) with
          | Raise e => (Raise e, w)
          | Ok img =>
              match py_setitem (style_rgbs (self w)) si (Some img) with
              | None => (Raise IndexError, w)
              | Some rgbs =>
                  match preview args img with
                  | Raise e => (Raise e, update (with_style_rgbs rgbs) w)
                  | Ok bgr =>
                      (Ok tt, push (ImShow win bgr)
                                (update (with_style_rgbs rgbs) w))
                  end
              end
          end
      end
  end.
Proof.
  unfold load_style, mbind, gets, getattr, from_option, lift, store_style.
  destruct (idx (self w)) as [i|]; [|done].
  destruct (py_getitem (style_imgs (self w)) i) as [file|]; [|done].
  simpl. destruct (get_img_crop _ _ _) as [img|e]; [|done].
  destruct (py_setitem _ _ _) as [rgbs|] eqn:E; [|done].
  simpl. rewrite (py_getitem_setitem _ _ _ _ E). simpl.
  unfold mbind, lift, emit. now destruct (preview args img).
Qed.

Lemma set_idx_run i w :
  set_idx args i w =
  load_style args 0 "Style Controls" (update (with_idx i) w).
Proof. reflexivity. Qed.

Lemma set_size_run v w :
  set_size args v w =
  load_style args 0 "Style Controls"
    (update (with_img_size (Z.max v (crop_size (self w)))) w).
Proof. reflexivity. Qed.

Lemma set_crop_size_run v w :
  set_crop_size args v w =
  load_style args 0 "Style Controls"
    (update (with_crop_size (Z.min v (img_size (self w)))) w).
Proof. reflexivity. Qed.

(* what loading a style leaves alone *)
Lemma load_style_same {A} (f : StyleWindow -> A) si win :
  (forall rgbs s, f (with_style_rgbs rgbs s) = f s) ->
  maintains (same f) (load_style args si win).
Proof.
  intros H w. unfold same. rewrite load_style_run.
  repeat case_match; simpl; auto.
Qed.

Lemma load_style_slot1 win :
  maintains (same (fun s => style_rgbs s !! 1%nat))
    (load_style args 0 win).
Proof.
  intros w. unfold same. rewrite load_style_run.
  repeat case_match; simpl; auto;
    (eapply py_setitem_0_other; [eassumption | lia]).
Qed.

(** ** The control surface *)

(** C8: [set_scale v] returns normally with [v / 100] stored as the content
    scale and nothing else changed: the two style slots, the stored index,
    both sizes, alpha, the interpolation weight and the catalog are what
    they were, no random number is drawn and nothing is shown, so no style
    is reloaded. *)
Theorem set_scale_only_scale (v : Z) (w : World) :
  let w' := (set_scale v w).2 in
  (set_scale v w).1 = Ok tt /\
  scale (self w') = PFloat (truediv v 100) /\
  style_rgbs (self w') = style_rgbs (self w) /\
  idx (self w') = idx (self w) /\
  img_size (self w') = img_size (self w) /\
  crop_size (self w') = crop_size (self w) /\
  alpha (self w') = alpha (self w) /\
  interp_weight (self w') = interp_weight (self w) /\
  style_imgs (self w') = style_imgs (self w) /\
  style_rgb (self w') = style_rgb (self w) /\
  rng w' = rng w /\
  trace w' = trace w.
Proof. cbv zeta. repeat split. Qed.

Lemma reload_first_slot_only w0 w :
  style_rgbs (self w0) = style_rgbs (self w) ->
  let s' := self (load_style args 0 "Style Controls" w0).2 in
  style_rgbs s' !! 1%nat = style_rgbs (self w) !! 1%nat /\
  ((load_style args 0 "Style Controls" w0).1 = Ok tt ->
   exists i file img,
     idx s' = Some i /\
     py_getitem (style_imgs s') i = Some file /\
     get_img_crop file (img_size s') (crop_size s') = Ok img /\
     style_rgbs s' !! 0%nat = Some (Some img)).
Proof.
  intros Hw0. cbv zeta. split.
  - rewrite <- Hw0. apply (load_style_slot1 "Style Controls" w0).
  - rewrite load_style_run.
    destruct (idx (self w0)) as [i|] eqn:Ei; [|done].
    destruct (py_getitem (style_imgs (self w0)) i) as [file|] eqn:Ef; [|done].
    destruct (get_img_crop _ _ _) as [img|e] eqn:Eg; [|done].
    destruct (py_setitem _ _ _) as [rgbs|] eqn:Es; [|done].
    destruct (preview args img) as [bgr|e] eqn:Ep; [|done].
    intros _. exists i, file, img. simpl. repeat split; try done.
    pose proof (py_getitem_setitem _ _ _ _ Es) as Hget.
    unfold py_getitem in Hget.
    destruct (py_index rgbs 0) as [k|] eqn:Ek; [|done].
    now apply py_index_0 in Ek as ->.
Qed.

(** C10: [set_idx], [set_size] and [set_crop_size] leave the buffer of the
    second slot, [style_rgbs[1]], as it was, and when one of them returns
    normally the first slot holds the catalog entry loaded at the sizes now
    stored. *)
Theorem mutators_reload_first_slot_only (v : Z) (w : World) :
  Forall
    (fun m : M unit =>
       let s' := self (m w).2 in
       style_rgbs s' !! 1%nat = style_rgbs (self w) !! 1%nat /\
       ((m w).1 = Ok tt ->
        exists i file img,
          idx s' = Some i /\
          py_getitem (style_imgs s') i = Some file /\
          get_img_crop file (img_size s') (crop_size s') = Ok img /\
          style_rgbs s' !! 0%nat = Some (Some img)))
    [set_idx args v; set_size args v; set_crop_size args v].
Proof.
  repeat constructor.
  - rewrite set_idx_run. now refine (proj1 (reload_first_slot_only _ w _)).
  - rewrite set_idx_run. now refine (proj2 (reload_first_slot_only _ w _)).
  - rewrite set_size_run. now refine (proj1 (reload_first_slot_only _ w _)).
  - rewrite set_size_run. now refine (proj2 (reload_first_slot_only _ w _)).
  - rewrite set_crop_size_run.
    now refine (proj1 (reload_first_slot_only _ w _)).
  - rewrite set_crop_size_run.
    now refine (proj2 (reload_first_slot_only _ w _)).
Qed.

(** C7: [set_idx i] called twice in a row ends both times the same way and
    with the same object; in particular the buffer in slot 0 after the
    second call is the buffer after the first. *)
Theorem set_idx_twice_same_buffer (i : Z) (w : World) :
  let w1 := (set_idx args i w).2 in
  let w2 := (set_idx args i w1).2 in
  style_rgbs (self w2) !! 0%nat = style_rgbs (self w1) !! 0%nat /\
  self w2 = self w1 /\
  (set_idx args i w1).1 = (set_idx args i w).1.
Proof.
  cbv zeta.
  assert (self (set_idx args i (set_idx args i w).2).2
          = self (set_idx args i w).2 /\
          (set_idx args i (set_idx args i w).2).1 = (set_idx args i w).1)
    as [H1 H2]; [|now rewrite H1].
  rewrite (set_idx_run i w), load_style_run. simpl.
  destruct (py_getitem (style_imgs (self w)) i) as [file|] eqn:Ef.
  2: { simpl. rewrite set_idx_run, load_style_run. simpl. now rewrite Ef. }
  destruct (get_img_crop file (img_size (self w)) (crop_size (self w)))
    as [img|e] eqn:Eg.
  2: { simpl. rewrite set_idx_run, load_style_run. simpl.
       now rewrite Ef, Eg. }
  destruct (py_setitem (style_rgbs (self w)) 0 (Some img)) as [rgbs|] eqn:Es.
  2: { simpl. rewrite set_idx_run, load_style_run. simpl.
       now rewrite Ef, Eg, Es. }
  destruct (preview args img) as [bgr|e] eqn:Ep;
    simpl; rewrite set_idx_run, load_style_run; simpl;
    rewrite Ef, Eg, (py_setitem_twice _ _ _ _ Es), Ep; simpl; done.
Qed.

(** ** Target size and crop size *)

Lemma set_size_fields v w :
  img_size (self (set_size args v w).2) = Z.max v (crop_size (self w)) /\
  crop_size (self (set_size args v w).2) = crop_size (self w).
Proof.
  rewrite set_size_run. split.
  - now rewrite (load_style_same img_size 0 "Style Controls").
  - now rewrite (load_style_same crop_size 0 "Style Controls").
Qed.

Lemma set_crop_size_fields v w :
  crop_size (self (set_crop_size args v w).2) = Z.min v (img_size (self w)) /\
  img_size (self (set_crop_size args v w).2) = img_size (self w).
Proof.
  rewrite set_crop_size_run. split.
  - now rewrite (load_style_same crop_size 0 "Style Controls").
  - now rewrite (load_style_same img_size 0 "Style Controls").
Qed.

Lemma size_call_invariant c w :
  crop_size (self (size_call args c w).2)
  <= img_size (self (size_call args c w).2).
Proof.
  destruct c as [v|v]; simpl.
  - destruct (set_size_fields v w) as [-> ->]. lia.
  - destruct (set_crop_size_fields v w) as [-> ->]. lia.
Qed.

Lemma py_setitem_some_nonempty {A} (l l' : list A) i x :
  py_setitem l i x = Some l' -> l <> [].
Proof.
  intros H ->. unfold py_setitem, py_index in H. simpl in H.
  repeat case_bool_decide; try lia; done.
Qed.

(* a reload returns exactly when the object has what it needs *)
Lemma load_style_reloads w :
  (load_style args 0 "Style Controls" w).1 = Ok tt <-> reloads args w.
Proof.
  rewrite load_style_run. unfold reloads. split.
  - destruct (idx (self w)) as [i|] eqn:Ei; [|done].
    destruct (py_getitem (style_imgs (self w)) i) as [file|] eqn:Ef; [|done].
    destruct (get_img_crop _ _ _) as [img|e] eqn:Eg; [|done].
    destruct (py_setitem _ _ _) as [rgbs|] eqn:Es; [|done].
    destruct (preview args img) as [bgr|e] eqn:Ep; [|done].
    intros _. exists i, file, img, bgr. repeat split; try done.
    eapply py_setitem_some_nonempty, Es.
  - intros (i & file & img & bgr & -> & -> & -> & Hne & ->).
    unfold py_setitem. now rewrite (py_index_0_nonempty _ Hne).
Qed.

(* and the object it leaves has it exactly when the object it found did *)
Lemma load_style_reloads_after w :
  reloads args (load_style args 0 "Style Controls" w).2 <-> reloads args w.
Proof.
  rewrite load_style_run.
  destruct (idx (self w)) as [i|] eqn:Ei; [|done].
  destruct (py_getitem (style_imgs (self w)) i) as [file|] eqn:Ef; [|done].
  destruct (get_img_crop _ _ _) as [img|e] eqn:Eg; [|done].
  destruct (py_setitem _ _ _) as [rgbs|] eqn:Es; [|done].
  pose proof (py_setitem_some_nonempty _ _ _ _ Es) as Hne.
  pose proof (py_setitem_nonempty _ _ _ _ Es Hne) as Hne'.
  destruct (preview args img) as [bgr|e] eqn:Ep; unfold reloads; simpl;
    (split; intros (i0 & f0 & img0 & bgr0 & H1 & H2 & H3 & _ & H5);
     exists i0, f0, img0, bgr0; repeat split; done).
Qed.

Lemma size_call_reloads c w :
  (size_call args c w).1 = Ok tt <-> reloads args (size_call args c w).2.
Proof.
  destruct c as [v|v]; simpl.
  - rewrite set_size_run, load_style_reloads_after. apply load_style_reloads.
  - rewrite set_crop_size_run, load_style_reloads_after.
    apply load_style_reloads.
Qed.

(** C1, as amended: after every call of every sequence of [set_size] and
    [set_crop_size] calls, with any integers, the crop size is at most the
    target size, whether the call returned or raised; [set_size] stores
    [max v crop_size] and [set_crop_size] stores [min v img_size], neither
    touching the other size, and each then does nothing but reload slot 0,
    so a call raises exactly when that reload does: a call returns normally
    if and only if, at the sizes it has stored, the stored index names a
    catalog entry, [get_img_crop] loads it, there is a slot 0, and the
    [cv2.resize] and [cv2.cvtColor] of [show_style] accept the image. *)
Theorem size_crop_clamping (calls : list SizeCall) (w : World) :
  Forall (fun rw => crop_size (self rw.2) <= img_size (self rw.2))
    (run_calls args calls w) /\
  (forall v w0,
     img_size (self (set_size args v w0).2) = Z.max v (crop_size (self w0)) /\
     crop_size (self (set_size args v w0).2) = crop_size (self w0) /\
     set_size args v w0
     = load_style args 0 "Style Controls"
         (update (with_img_size (Z.max v (crop_size (self w0)))) w0)) /\
  (forall v w0,
     crop_size (self (set_crop_size args v w0).2)
     = Z.min v (img_size (self w0)) /\
     img_size (self (set_crop_size args v w0).2) = img_size (self w0) /\
     set_crop_size args v w0
     = load_style args 0 "Style Controls"
         (update (with_crop_size (Z.min v (img_size (self w0)))) w0)) /\
  Forall (fun rw => rw.1 = Ok tt <-> reloads args rw.2)
    (run_calls args calls w).
Proof.
  split; [|split; [|split]].
  2: { intros v w0. destruct (set_size_fields v w0). now repeat split. }
  2: { intros v w0. destruct (set_crop_size_fields v w0). now repeat split. }
  - revert w. induction calls as [|c calls IH]; intros w; simpl.
    + constructor.
    + constructor; [apply size_call_invariant | apply IH].
  - revert w. induction calls as [|c calls IH]; intros w; simpl.
    + constructor.
    + constructor; [apply size_call_reloads | apply IH].
Qed.

(** ** Interpolation weight and random selection *)

Lemma set_interp_run v w :
  set_interp v w = (Ok tt, update (with_interp_weight (truediv v 100)) w).
Proof. reflexivity. Qed.

Lemma select_random_single ia w :
  length (style_imgs (self w)) = 1%nat ->
  (select_idx ia true w).1 = Ok tt /\
  idx (self (select_idx ia true w).2) = Some 0.
Proof.
  intros Hlen.
  assert (forall w0, length (style_imgs (self w0)) = 1%nat ->
            ((imgs <- gets style_imgs ;;
              r <- np_random_randint (Z.of_nat (length imgs)) ;;
              modify (with_idx r)) w0).1 = Ok tt /\
            idx (self ((imgs <- gets style_imgs ;;
              r <- np_random_randint (Z.of_nat (length imgs)) ;;
              modify (with_idx r)) w0).2) = Some 0) as Hdraw.
  { intros w0 H0. unfold mbind, gets, np_random_randint, with_rng, modify.
    rewrite H0. change (Z.of_nat 1) with 1. simpl.
    pose proof (randint_range (rng w0) 1 ltac:(lia)) as Hr.
    destruct (randint (rng w0) 1) as [r g]. simpl in *.
    split; [done|]. f_equal. lia. }
  unfold select_idx. destruct ia as [i|].
  - apply (Hdraw (update (with_idx i) w)). exact Hlen.
  - apply (Hdraw w). exact Hlen.
Qed.

Lemma set_style_random_single ia si win w :
  length (style_imgs (self w)) = 1%nat ->
  idx (self (set_style args ia true si win w).2) = Some 0.
Proof.
  intros Hlen. destruct (select_random_single ia w Hlen) as [Hok Hidx].
  unfold set_style. rewrite run_bind.
  destruct (select_idx ia true w) as [[[]|e] w1]; simpl in *; [|done].
  now rewrite (load_style_same idx si win).
Qed.

(** ** What each part of [main] puts on the trace *)

(* reuse a lemma stated for a stronger event predicate *)
Ltac appends_from H :=
  eapply appends_weaken; [| apply H];
  let e := fresh "e" in intros e; destruct e; simpl; tauto.

Lemma appends_style ia r si win :
  win = "Style Controls" \/ win = "style2" ->
  maintains (appends style_event) (set_style args ia r si win).
Proof. intros H. now apply appends_set_style. Qed.

Lemma appends_style_controls ia r si :
  maintains (appends style_event) (set_style args ia r si "Style Controls").
Proof. apply appends_style. now left. Qed.

Lemma appends_style2 ia r si :
  maintains (appends style_event) (set_style args ia r si "style2").
Proof. apply appends_style. now right. Qed.

(* the reloads [main] makes, by the window they show in *)
Ltac appends_reload :=
  lazymatch goal with
  | |- maintains _ (set_style _ _ _ _ "Style Controls") =>
      appends_from appends_style_controls
  | |- maintains _ (set_style _ _ _ _ "style2") =>
      appends_from appends_style2
  end.

Lemma appends_callback cb v :
  maintains (appends style_event) (run_callback args cb v).
Proof.
  destruct cb; simpl;
    unfold set_idx, set_size, set_crop_size, set_alpha, set_scale, set_interp;
    appends_auto; apply appends_style_controls.
Qed.

Lemma appends_run_ui moves :
  maintains (appends style_event) (run_ui args moves).
Proof.
  induction moves as [|[cb v] rest IH]; simpl; appends_auto.
  - apply appends_callback.
  - exact IH.
Qed.

Lemma appends_prepare frame keep_colors count :
  maintains (appends prepare_event) (prepare args frame keep_colors count).
Proof.
  unfold prepare, content_stage, auto_reload, recolor_style.
  appends_auto;
    lazymatch goal with
    | |- maintains _ _ => appends_reload
    | |- _ => exact I
    end.
Qed.

Lemma appends_infer_calls image_rgb :
  maintains (appends engine_event) (infer args image_rgb).
Proof. unfold infer. appends_auto; done. Qed.

Lemma appends_infer out image_rgb :
  maintains (appends (pass_event out)) (infer args image_rgb).
Proof. appends_from appends_infer_calls. Qed.

Lemma appends_stitch out stylized_rgb :
  maintains (appends (pass_event out)) (stitch args stylized_rgb).
Proof. unfold stitch. appends_auto. Qed.

Lemma appends_output out stylized_rgb :
  maintains (appends (pass_event out)) (output args out stylized_rgb).
Proof. unfold output. appends_auto; simpl; eauto. Qed.

Lemma appends_handle_key out t keep_colors count :
  maintains (appends (pass_event out)) (handle_key args t keep_colors count).
Proof.
  unfold handle_key, cv2_waitKey.
  appends_auto;
    lazymatch goal with
    | |- maintains _ (run_ui _ _) => appends_from appends_run_ui
    | |- maintains _ _ => appends_reload
    | |- _ => exact I
    end.
Qed.

Lemma appends_body out t keep_colors count :
  maintains (appends (pass_event out)) (body args out t keep_colors count).
Proof.
  unfold body. appends_auto.
  - appends_from appends_prepare.
  - apply appends_infer.
  - apply appends_stitch.
  - apply appends_output.
  - apply appends_handle_key.
Qed.

Lemma appends_loop out ticks keep_colors count :
  maintains (appends (pass_event out)) (loop args out ticks keep_colors count).
Proof.
  revert keep_colors count.
  induction ticks as [|t rest IH]; intros keep_colors count; simpl.
  - appends_auto.
  - appends_auto; [apply appends_body | apply IH].
Qed.

Lemma appends_shutdown : maintains (appends shutdown_event) (shutdown args).
Proof. unfold shutdown. appends_auto; done. Qed.

Lemma appends_init path size sc al interp :
  maintains (appends (panel_event (catalog_size path)))
    (StyleWindow_init args path size sc al interp).
Proof.
  intros w. unfold StyleWindow_init, catalog_size. rewrite run_bind.
  unfold lift at 1. destruct (get_files path) as [files|e]; [|reflexivity].
  lazymatch goal with
  | |- appends ?P _ ((mbind _ (fun _ => mbind _ (fun _ => mbind _ ?k))) _).2 =>
      change (appends P w
                (k files
                   (push (NamedWindow "Style Controls")
                      (update (fun _ => new_StyleWindow files size sc al)
                         w))).2)
  end.
  cbv beta.
  transitivity (push (NamedWindow "Style Controls")
                  (update (fun _ => new_StyleWindow files size sc al) w)).
  { exists [NamedWindow "Style Controls"]. split; [reflexivity|].
    now repeat constructor. }
  lazymatch goal with
  | |- appends ?P ?w0 (?m ?w0).2 =>
      cut (maintains (appends P) m); [intros H; apply H|]
  end.
  destruct (bool_decide_reflect (1 < Z.of_nat (length files)));
    appends_auto;
    lazymatch goal with
    | |- maintains _ _ => appends_reload
    | |- _ => simpl; first [exact I | intros _; lia | discriminate]
    end.
Qed.

Lemma startup_run first w :
  exists e_panel,
    Forall (panel_event (catalog_size (style_path args))) e_panel /\
    ((exists e, (startup args first w).1 = Raise e) /\
     trace (startup args first w).2 = trace w ++ e_panel
     \/
     exists frame frame_resize,
       first = Some frame /\
       cv2_resize_by frame (arg_scale args) (arg_scale args)
       = Ok frame_resize /\
       (startup args first w).1
       = Ok (video_out_shape args (shape frame_resize)) /\
       trace (startup args first w).2
       = trace w ++ e_panel
         ++ opening args (video_out_shape args (shape frame_resize))
         ++ [FpsStart]).
Proof.
  unfold startup.
  rewrite (run_bind_ok (emit _) _ w tt _ eq_refl), run_bind.
  destruct (appends_init (style_path args) (style_size args) (arg_scale args)
              (arg_alpha args) (interpolate args)
              (push (LoadModel (checkpoint args) (device args)) w))
    as (e_init & Htr & Hall).
  destruct (StyleWindow_init _ _ _ _ _ _ _) as [[[]|e] w2]; simpl in Htr.
  - exists (LoadModel (checkpoint args) (device args) :: e_init
            ++ [CapStart (video_source args) (width args) (height args)]).
    split.
    { constructor; [done|]. apply Forall_app. split; [done|].
      now repeat constructor. }
    destruct first as [frame|].
    + unfold mbind, emit, from_option, mret, lift. simpl.
      destruct (cv2_resize_by frame (arg_scale args) (arg_scale args))
        as [frame_resize|e] eqn:Er.
      * right. exists frame, frame_resize. split; [done|]. split; [done|].
        unfold opening.
        destruct (video_out args); simpl; rewrite Htr;
          (split; [done|]); rewrite <- !app_assoc; reflexivity.
      * left. simpl. split; [eauto|]. rewrite Htr, <- !app_assoc.
        reflexivity.
    + left. unfold mbind, emit, from_option, raise. simpl.
      split; [eauto|]. rewrite Htr, <- !app_assoc. reflexivity.
  - exists (LoadModel (checkpoint args) (device args) :: e_init).
    split; [now constructor|].
    left. simpl. split; [eauto|]. rewrite Htr, <- app_assoc. reflexivity.
Qed.

Lemma main_trace first ticks w :
  exists e_panel,
    Forall (panel_event (catalog_size (style_path args))) e_panel /\
    (trace (main args first ticks w).2 = trace w ++ e_panel
     \/
     exists frame frame_resize e_loop e_end,
       first = Some frame /\
       cv2_resize_by frame (arg_scale args) (arg_scale args)
       = Ok frame_resize /\
       Forall (pass_event (video_out_shape args (shape frame_resize))) e_loop /\
       Forall shutdown_event e_end /\
       trace (main args first ticks w).2
       = trace w ++ e_panel
         ++ opening args (video_out_shape args (shape frame_resize))
         ++ [FpsStart] ++ e_loop ++ e_end).
Proof.
  destruct (startup_run first w) as (e_panel & Hpanel & Hrun).
  exists e_panel. split; [done|].
  unfold main. rewrite run_bind.
  destruct Hrun
    as [[[e He] Htr] | (frame & frame_resize & -> & Hr & Hok & Htr)].
  - left. destruct (startup args first w) as [[out|e'] w1]; simpl in *; done.
  - right. exists frame, frame_resize.
    destruct (startup args (Some frame) w) as [[out|e'] w1]; simpl in *;
      [|done].
    injection Hok as ->. rewrite run_bind.
    destruct (appends_loop (video_out_shape args (shape frame_resize)) ticks
                (arg_keep_colors args) 0 w1) as (e_loop & Hl & Floop).
    destruct (loop args _ ticks _ 0 w1) as [[[|kc c]|e] w2]; simpl in Hl.
    + destruct (appends_shutdown w2) as (e_end & Hs & Fend).
      exists e_loop, e_end. repeat split; try done.
      rewrite run_bind.
      destruct (shutdown args w2) as [[[]|e] w3]; simpl in *;
        rewrite Hs, Hl, Htr, <- !app_assoc; reflexivity.
    + exists e_loop, []. repeat split; try done. simpl.
      rewrite Hl, Htr, <- !app_assoc, app_nil_r. reflexivity.
    + exists e_loop, []. repeat split; try done. simpl.
      rewrite Hl, Htr, <- !app_assoc, app_nil_r. reflexivity.
Qed.

(** ** Reading the trace of a run *)

Lemma omap_nothing {A B} (f : A -> option B) (P : A -> Prop) l :
  (forall a, P a -> f a = None) -> Forall P l -> omap f l = [].
Proof.
  intros H. induction 1 as [|a l Ha _ IH]; [done|].
  simpl. now rewrite (H a Ha).
Qed.

Lemma appends_unseen {B} (f : Event -> option B) P w w' :
  (forall e, P e -> f e = None) ->
  appends P w w' -> omap f (trace w') = omap f (trace w).
Proof.
  intros H (evs & -> & F).
  now rewrite omap_app, (omap_nothing f P evs H F), app_nil_r.
Qed.

Lemma video_writes_pass out evs :
  Forall (pass_event out) evs ->
  Forall (fun img => exists src, cv2_resize src out = Ok img)
    (video_writes evs).
Proof.
  induction 1 as [|e evs He _ IH]; [constructor|].
  unfold video_writes in *. destruct e; simpl; try done.
  constructor; [exact He | exact IH].
Qed.

Lemma video_writes_app l1 l2 :
  video_writes (l1 ++ l2) = video_writes l1 ++ video_writes l2.
Proof. apply omap_app. Qed.

Lemma writer_opens_app l1 l2 :
  writer_opens (l1 ++ l2) = writer_opens l1 ++ writer_opens l2.
Proof. apply omap_app. Qed.

Lemma index_trackbars_app l1 l2 :
  index_trackbars (l1 ++ l2) = index_trackbars l1 ++ index_trackbars l2.
Proof. apply omap_app. Qed.

Lemma panel_no_video n evs :
  Forall (panel_event n) evs -> video_writes evs = [] /\ writer_opens evs = [].
Proof.
  intros H. split; (eapply omap_nothing; [|exact H]); intros e He;
    now destruct e.
Qed.

Lemma shutdown_no_video evs :
  Forall shutdown_event evs ->
  video_writes evs = [] /\ writer_opens evs = [] /\ index_trackbars evs = [].
Proof.
  intros H. repeat split; (eapply omap_nothing; [|exact H]); intros e He;
    now destruct e.
Qed.

Lemma pass_no_open out evs :
  Forall (pass_event out) evs ->
  writer_opens evs = [] /\ index_trackbars evs = [].
Proof.
  intros H. repeat split; (eapply omap_nothing; [|exact H]); intros e He;
    now destruct e.
Qed.

(** C4: with video output on, in every run of [main] on a fresh trace the
    video writer is created at most once, with the size computed from the
    sample frame scaled by [args.scale] (width plus height by height in
    concat mode, width by height otherwise), and every frame written is
    what [cv2.resize(..., out_shape)] returned for that size, and has that
    size, whatever the ticks bring: moves of the scale trackbar included.
    When [cv2.resize] rejects the sample frame there is no size: no writer
    is created and nothing is written. *)
Theorem video_size_locked (path : string) (frame : Img) (ticks : list Tick)
    (w : World) :
  video_out args = Some path ->
  trace w = [] ->
  let tr := trace (main args (Some frame) ticks w).2 in
  match cv2_resize_by frame (arg_scale args) (arg_scale args) with
  | Ok frame_resize =>
      let sample := shape frame_resize in
      let out := video_out_shape args sample in
      out = (if concat args then (sample.1.2 + sample.1.1, sample.1.1)
             else (sample.1.2, sample.1.1)) /\
      Forall (fun img => (exists src, cv2_resize src out = Ok img) /\
                         (shape img).1 = (out.2, out.1))
        (video_writes tr) /\
      (writer_opens tr = [out] \/ writer_opens tr = [] /\ video_writes tr = [])
  | Raise _ => writer_opens tr = [] /\ video_writes tr = []
  end.
Proof.
  intros Hvideo Hfresh. cbv zeta.
  destruct (main_trace (Some frame) ticks w) as (e_panel & Hpanel & Hmain).
  destruct (panel_no_video _ _ Hpanel) as [Hpw Hpo].
  destruct (cv2_resize_by frame (arg_scale args) (arg_scale args))
    as [frame_resize|e] eqn:Er.
  - split; [reflexivity|].
    destruct Hmain
      as [-> | (f & fr & e_loop & e_end & [= <-] & Hr & Hloop & Hend & ->)];
      rewrite Hfresh, app_nil_l.
    + rewrite Hpw, Hpo. split; [constructor | now right].
    + rewrite Er in Hr. injection Hr as <-.
      destruct (shutdown_no_video _ Hend) as (Hew & Heo & _).
      destruct (pass_no_open _ _ Hloop) as [Hlo _].
      set (out := video_out_shape args (shape frame_resize)) in *.
      assert (video_writes (opening args out) = [] /\
              writer_opens (opening args out) = [out]) as [How Hoo].
      { unfold opening. now rewrite Hvideo. }
      rewrite !video_writes_app, !writer_opens_app.
      rewrite Hpw, Hpo, Hew, Heo, Hlo, How, Hoo. simpl.
      rewrite app_nil_r. split; [|now left].
      eapply Forall_impl; [apply (video_writes_pass _ _ Hloop)|].
      intros img [src Hsrc]. split; [eauto|].
      destruct out as [ow oh]. now rewrite (shape_resize _ _ _ _ Hsrc).
  - destruct Hmain
      as [-> | (f & fr & e_loop & e_end & [= <-] & Hr & _)];
      [|rewrite Er in Hr; discriminate Hr].
    now rewrite Hfresh, app_nil_l, Hpw, Hpo.
Qed.

Lemma panel_single_no_index e :
  panel_event 1 e ->
  match e with
  | CreateTrackbar name _ _ _ _ =>
      if String.eqb name "index" then Some e else None
  | _ => None
  end = None.
Proof.
  destruct e; simpl; try done. intros H.
  destruct (String.eqb_spec name "index") as [->|]; [|done].
  specialize (H eq_refl). lia.
Qed.

(** C6: when the catalog holds exactly one image, no run of [main] creates
    a trackbar named [index], and every [set_style] call with [random=True]
    on the object leaves the stored index at 0. *)
Theorem single_style_catalog (imgs : list string) :
  get_files (style_path args) = Ok imgs ->
  length imgs = 1%nat ->
  (forall first ticks w,
     trace w = [] ->
     index_trackbars (trace (main args first ticks w).2) = []) /\
  (forall ia si win w,
     style_imgs (self w) = imgs ->
     idx (self (set_style args ia true si win w).2) = Some 0).
Proof.
  intros Hfiles Hone. split.
  - intros first ticks w Hfresh.
    destruct (main_trace first ticks w) as (e_panel & Hpanel & Hmain).
    unfold catalog_size in Hpanel. rewrite Hfiles, Hone in Hpanel.
    assert (index_trackbars e_panel = []) as Hp.
    { eapply omap_nothing; [|exact Hpanel]. apply panel_single_no_index. }
    destruct Hmain
      as [-> | (f & fr & e_loop & e_end & -> & _ & Hloop & Hend & ->)];
      rewrite Hfresh, app_nil_l; [exact Hp|].
    destruct (shutdown_no_video _ Hend) as (_ & _ & He).
    destruct (pass_no_open _ _ Hloop) as [_ Hl].
    assert (index_trackbars
              (opening args (video_out_shape args (shape fr))) = []) as Ho.
    { unfold opening. now destruct (video_out args). }
    rewrite !index_trackbars_app. now rewrite Hp, Ho, Hl, He.
  - intros ia si win w Hcat. apply set_style_random_single.
    now rewrite Hcat.
Qed.

(** ** The pass of the loop *)

Lemma loop_app out before after keep_colors count w :
  loop args out (before ++ after) keep_colors count w =
  match loop args out before keep_colors count w with
  | (Ok (Running keep_colors' count'), w') =>
      loop args out after keep_colors' count' w'
  | other => other
  end.
Proof.
  revert keep_colors count w.
  induction before as [|t rest IH]; intros keep_colors count w; [done|].
  simpl. rewrite !run_bind.
  destruct (body args out t keep_colors count w) as [[[|kc c]|e] w1];
    [done | apply IH | done].
Qed.

Lemma prepare_unseen frame keep_colors count w :
  shown_frames (trace (prepare args frame keep_colors count w).2)
  = shown_frames (trace w) /\
  video_writes (trace (prepare args frame keep_colors count w).2)
  = video_writes (trace w) /\
  engine_calls (trace (prepare args frame keep_colors count w).2)
  = engine_calls (trace w).
Proof.
  pose proof (appends_prepare frame keep_colors count w) as H.
  repeat split; (eapply appends_unseen; [|exact H]);
    intros e He; destruct e; try done; simpl in *.
  destruct He as [-> | ->]; reflexivity.
Qed.

Lemma infer_unseen image_rgb w :
  shown_frames (trace (infer args image_rgb w).2) = shown_frames (trace w) /\
  video_writes (trace (infer args image_rgb w).2) = video_writes (trace w).
Proof.
  pose proof (appends_infer_calls image_rgb w) as H.
  split; (eapply appends_unseen; [|exact H]); intros e He; now destruct e.
Qed.

Lemma body_raise_ends_loop out t after keep_colors count w e w' :
  body args out t keep_colors count w = (Raise e, w') ->
  loop args out (t :: after) keep_colors count w = (Raise e, w').
Proof.
  intros H. cbn [loop]. now rewrite (run_bind_raise _ _ _ _ _ H).
Qed.

Lemma infer_raise_ends_body out t keep_colors count w frame image_rgb w1 e w2 :
  cam t = Some frame ->
  prepare args frame keep_colors (count + 1) w = (Ok image_rgb, w1) ->
  infer args image_rgb w1 = (Raise e, w2) ->
  body args out t keep_colors count w = (Raise e, w2).
Proof.
  intros Hcam Hprep Hinfer. unfold body. rewrite Hcam. cbv zeta.
  rewrite (run_bind_ok _ _ _ _ _ Hprep).
  now rewrite (run_bind_raise _ _ _ _ _ Hinfer).
Qed.

(** C2, as amended: the loop does not catch an error of the engine.  When
    the ticks before [t] went through, the camera delivers a frame at [t],
    and the call to the engine on that frame raises [e], the loop ends at
    [t] with [e], whatever ticks follow: the frames shown and written are
    those of the ticks before [t], and neither the frame of [t] nor a later
    one reaches the output sink. *)
Theorem engine_error_ends_loop (out : Z * Z) (before after : list Tick)
    (t : Tick) (keep_colors : bool) (count : Z) (w : World)
    (keep_colors' : bool) (count' : Z) (w1 : World) (frame image_rgb : Img)
    (w2 : World) (e : Exn) (w3 : World) :
  loop args out before keep_colors count w
  = (Ok (Running keep_colors' count'), w1) ->
  cam t = Some frame ->
  prepare args frame keep_colors' (count' + 1) w1 = (Ok image_rgb, w2) ->
  infer args image_rgb w2 = (Raise e, w3) ->
  loop args out (before ++ t :: after) keep_colors count w = (Raise e, w3) /\
  shown_frames (trace w3) = shown_frames (trace w1) /\
  video_writes (trace w3) = video_writes (trace w1).
Proof.
  intros Hbefore Hcam Hprep Hinfer.
  destruct (prepare_unseen frame keep_colors' (count' + 1) w1) as (Hs & Hv & _).
  destruct (infer_unseen image_rgb w2) as (Hs' & Hv').
  rewrite Hprep in Hs, Hv. rewrite Hinfer in Hs', Hv'. simpl in *.
  split; [|split; congruence].
  rewrite loop_app, Hbefore. apply body_raise_ends_loop.
  eapply infer_raise_ends_body; eassumption.
Qed.

Lemma recolor_style_run w :
  recolor_style w =
  (Raise (match style_rgb (self w) with
          | None => AttributeError "style_rgb"
          | Some _ => NameError "content_img"
          end), w).
Proof.
  unfold recolor_style, mbind, getattr, raise.
  now destruct (style_rgb (self w)).
Qed.

Lemma prepare_keep_colors_raises frame count w :
  exists e, (prepare args frame true count w).1 = Raise e.
Proof.
  unfold prepare. rewrite run_bind.
  destruct (content_stage args frame count w) as [[img|e] w1]; [|eauto].
  rewrite run_bind.
  destruct (auto_reload args count w1) as [[[]|e] w2]; [|eauto].
  rewrite run_bind, recolor_style_run. eauto.
Qed.

(** C3, the code at the failing input: with [keep_colors] on, a pass that
    gets a frame raises before it reaches the engine.  Line 162 itself
    raises [AttributeError] for [style_rgb], an attribute no line assigns
    (and [NameError] for [content_img] were it set); no call to the engine
    is made and no frame is shown or written. *)
Theorem keep_colors_pass_raises (out : Z * Z) (frame : Img)
    (moves : list (Callback * Z)) (k : Z) (count : Z) (w : World) :
  let t := {| cam := Some frame; ui := moves; key := k |} in
  (exists e, (body args out t true count w).1 = Raise e) /\
  engine_calls (trace (body args out t true count w).2)
  = engine_calls (trace w) /\
  shown_frames (trace (body args out t true count w).2)
  = shown_frames (trace w) /\
  video_writes (trace (body args out t true count w).2)
  = video_writes (trace w) /\
  recolor_style w
  = (Raise (match style_rgb (self w) with
            | None => AttributeError "style_rgb"
            | Some _ => NameError "content_img"
            end), w).
Proof.
  cbv zeta. unfold body. cbn [cam]. cbv zeta. rewrite run_bind.
  destruct (prepare_keep_colors_raises frame (count + 1) w) as [e He].
  destruct (prepare_unseen frame true (count + 1) w) as (Hs & Hv & Hc).
  destruct (prepare args frame true (count + 1) w) as [[img|e'] w1];
    simpl in *; [done|].
  repeat split; try done; [eauto | apply recolor_style_run].
Qed.

(** C5: [set_interp v] stores [v / 100] as the interpolation weight, and
    with [args.interpolate] on the call to the engine is
    [predict_interpolate] on the content image, the list of the two style
    slots, the weights [[w, 1 - w]] for the stored weight [w], and the
    stored alpha: after [set_interp v] the weights are
    [[v/100, 1 - v/100]]. *)
Theorem interpolation_weights (v : Z) (image_rgb : Img) (w : World) :
  interpolate args = true ->
  let w1 := (set_interp v w).2 in
  let x := truediv v 100 in
  (set_interp v w).1 = Ok tt /\
  interp_weight (self w1) = Some x /\
  infer args image_rgb w1
  = (predict_interpolate image_rgb (style_rgbs (self w)) [x; rsub 1 x]
       (alpha (self w)),
     push (CallPredictInterpolate image_rgb (style_rgbs (self w))
             [x; rsub 1 x] (alpha (self w))) w1) /\
  (forall w0 y,
     interp_weight (self w0) = Some y ->
     infer args image_rgb w0
     = (predict_interpolate image_rgb (style_rgbs (self w0)) [y; rsub 1 y]
          (alpha (self w0)),
        push (CallPredictInterpolate image_rgb (style_rgbs (self w0))
                [y; rsub 1 y] (alpha (self w0))) w0)).
Proof.
  intros Hinterp. cbv zeta.
  assert (forall w0 y,
     interp_weight (self w0) = Some y ->
     infer args image_rgb w0
     = (predict_interpolate image_rgb (style_rgbs (self w0)) [y; rsub 1 y]
          (alpha (self w0)),
        push (CallPredictInterpolate image_rgb (style_rgbs (self w0))
                [y; rsub 1 y] (alpha (self w0))) w0)) as Hcall.
  { intros w0 y Hy. unfold infer. rewrite Hinterp. cbn [negb].
    unfold mbind, getattr, gets, emit, lift. rewrite Hy. cbv iota beta.
    now rewrite Hy. }
  repeat split; [|exact Hcall].
  now rewrite (Hcall (set_interp v w).2 (truediv v 100)).
Qed.

(** C9: in noise mode the content image depends on the camera frame through
    its shape only.  For two frames of equal shape, from the same state
    (scale, generator, styles, alpha), the content stage ends the same way,
    with the same image and the same state, and so does the whole pass;
    when [cv2.resize] returns, the image is the generator's array of the
    resized frame's shape, blurred with sigma 0.5 and converted to RGB. *)
Theorem noise_content_independent (f1 f2 : Img) (count : Z) (w : World) :
  noise args = true ->
  shape f1 = shape f2 ->
  content_stage args f1 count w = content_stage args f2 count w /\
  (forall out moves k keep_colors,
     body args out {| cam := Some f1; ui := moves; key := k |}
       keep_colors count w
     = body args out {| cam := Some f2; ui := moves; key := k |}
         keep_colors count w) /\
  (forall frame_resize,
     cv2_resize_by f1 (scale (self w)) (scale (self w)) = Ok frame_resize ->
     (content_stage args f1 count w).1
     = cv2_cvtColor
         (gaussian_filter
            (randint_array (rng w) (shape frame_resize)).1 sigma)
         COLOR_BGR2RGB).
Proof.
  intros Hnoise Hshape.
  assert (forall c, content_stage args f1 c w = content_stage args f2 c w)
    as Hcontent.
  { intros c. unfold content_stage. rewrite Hnoise.
    unfold mbind, gets, lift, with_rng, emit, mret.
    destruct (cv2_resize_by f1 (scale (self w)) (scale (self w)))
      as [r1|e1] eqn:E1;
      destruct (cv2_resize_by f2 (scale (self w)) (scale (self w)))
        as [r2|e2] eqn:E2.
    - rewrite (shape_resize_by _ _ _ _ E1), (shape_resize_by _ _ _ _ E2).
      now rewrite Hshape.
    - rewrite (resize_by_raises _ _ _ _ _ (eq_sym Hshape) E2) in E1.
      discriminate E1.
    - rewrite (resize_by_raises _ _ _ _ _ Hshape E1) in E2. discriminate E2.
    - rewrite (resize_by_raises _ _ _ _ _ Hshape E1) in E2.
      now injection E2 as <-. }
  split; [apply Hcontent|]. split.
  - intros out moves k keep_colors. unfold body. cbn [cam]. cbv zeta.
    unfold prepare. rewrite !run_bind, Hcontent. reflexivity.
  - intros frame_resize Hr. unfold content_stage. rewrite Hnoise.
    unfold mbind, gets, lift, with_rng, emit, mret. rewrite Hr.
    destruct (randint_array _ _). simpl. now destruct (cv2_cvtColor _ _).
Qed.

(** * Further facts *)

(** ** The constructor *)

Lemma pushes_fields evs w :
  trace (pushes evs w) = trace w ++ evs /\
  self (pushes evs w) = self w /\ rng (pushes evs w) = rng w.
Proof.
  revert w. induction evs as [|e evs IH]; intros w; simpl.
  - now rewrite app_nil_r.
  - destruct (IH (push e w)) as (-> & -> & ->). simpl.
    now rewrite <- app_assoc.
Qed.

(* [__init__] does nothing when the catalog cannot be listed *)
Lemma init_raise_files path size sc al interp w e :
  get_files path = Raise e ->
  StyleWindow_init args path size sc al interp w = (Raise e, w).
Proof.
  intros H. unfold StyleWindow_init. unfold mbind at 1, lift at 1.
  now rewrite H.
Qed.

(* and stops before the scale trackbar when [int(scale*100)] raises *)
Lemma init_raise_position path size sc al interp w files e :
  get_files path = Ok files ->
  int_times_100 sc = Raise e ->
  (StyleWindow_init args path size sc al interp w).1 = Raise e.
Proof.
  intros Hf Hp. unfold StyleWindow_init. rewrite Hf, Hp.
  unfold mbind, lift, modify, emit, gets, mret. simpl.
  now destruct (bool_decide _).
Qed.

(* [__init__] up to the first style: the object is fresh, the panel is on
   the trace, and the rest runs from there *)
Lemma init_run path size sc al interp w files position :
  get_files path = Ok files ->
  int_times_100 sc = Ok position ->
  StyleWindow_init args path size sc al interp w =
  (set_style args None true 0 "Style Controls" ;;
   if interp then
     emit (NamedWindow "style2") ;;
     modify (with_interp_weight (float_of_Z 1)) ;;
     emit (CreateTrackbar "interpolation" "Style Controls" 100 100
             cb_set_interp) ;;
     set_style args None true 1 "style2"
   else mret tt)
    (pushes (NamedWindow "Style Controls"
             :: init_trackbars files size
             ++ [CreateTrackbar "scale" "Style Controls" position 200
                   cb_set_scale])
       (update (fun _ => new_StyleWindow files size sc al) w)).
Proof.
  intros Hf Hp. unfold StyleWindow_init, init_trackbars. rewrite Hf, Hp.
  unfold mbind at 1, lift at 1.
  lazymatch goal with
  | |- (mbind _ (fun _ => mbind _ (fun _ => mbind _ ?k))) _ = ?rhs =>
      change (k files
                (push (NamedWindow "Style Controls")
                   (update (fun _ => new_StyleWindow files size sc al) w))
              = rhs)
  end.
  cbv beta.
  destruct (bool_decide (1 < Z.of_nat (length files))); reflexivity.
Qed.

(* choosing the index touches the index and the generator only *)
Lemma select_idx_frame ia r w :
  let w1 := (select_idx ia r w).2 in
  style_imgs (self w1) = style_imgs (self w) /\
  style_rgbs (self w1) = style_rgbs (self w) /\
  img_size (self w1) = img_size (self w) /\
  crop_size (self w1) = crop_size (self w) /\
  scale (self w1) = scale (self w) /\
  alpha (self w1) = alpha (self w) /\
  interp_weight (self w1) = interp_weight (self w) /\
  style_rgb (self w1) = style_rgb (self w) /\
  trace w1 = trace w.
Proof.
  cbv zeta.
  unfold select_idx, np_random_randint, mbind, modify, gets, mret, with_rng,
    raise.
  destruct ia as [i|], r; simpl; try done;
    case_bool_decide; simpl; try done;
    destruct (randint _ _); simpl; done.
Qed.

Lemma select_idx_random ia w :
  let n := length (style_imgs (self w)) in
  (n = 0%nat -> (select_idx ia true w).1 = Raise ValueError) /\
  ((0 < n)%nat ->
   (select_idx ia true w).1 = Ok tt /\
   exists r, idx (self (select_idx ia true w).2) = Some r /\
             0 <= r < Z.of_nat n).
Proof.
  cbv zeta.
  unfold select_idx, np_random_randint, mbind, modify, gets, mret, with_rng,
    raise.
  split; intros Hn.
  - destruct ia as [i|]; simpl; rewrite Hn; simpl; done.
  - destruct ia as [i|]; simpl;
      (rewrite bool_decide_true by lia);
      pose proof (randint_range (rng w)
                    (Z.of_nat (length (style_imgs (self w))))
                    ltac:(lia)) as Hr;
      destruct (randint _ _) as [x g]; simpl in *; eauto.
Qed.

Lemma select_idx_keep ia w :
  select_idx ia false w
  = (Ok tt, match ia with
            | Some i => update (with_idx i) w
            | None => w
            end).
Proof. now destruct ia. Qed.

(* what a call of [set_style] that returns has done *)
Lemma set_style_ok ia r si win w w' :
  set_style args ia r si win w = (Ok tt, w') ->
  exists i file img rgbs,
    idx (self w') = Some i /\
    py_getitem (style_imgs (self w)) i = Some file /\
    get_img_crop file (img_size (self w)) (crop_size (self w)) = Ok img /\
    py_setitem (style_rgbs (self w)) si (Some img) = Some rgbs /\
    style_rgbs (self w') = rgbs /\
    style_imgs (self w') = style_imgs (self w) /\
    img_size (self w') = img_size (self w) /\
    crop_size (self w') = crop_size (self w) /\
    interp_weight (self w') = interp_weight (self w) /\
    exists bgr, preview args img = Ok bgr /\
                trace w' = trace w ++ [ImShow win bgr].
Proof.
  unfold set_style. rewrite run_bind.
  pose proof (select_idx_frame ia r w) as Hf. cbv zeta in Hf.
  destruct (select_idx ia r w) as [[[]|e] w1]; [|done]. simpl in Hf.
  destruct Hf as (Himgs & Hrgbs & Hsize & Hcrop & _ & _ & Hiw & _ & Htr).
  rewrite load_style_run.
  destruct (idx (self w1)) as [i|] eqn:Ei; [|done].
  destruct (py_getitem (style_imgs (self w1)) i) as [file|] eqn:Ef; [|done].
  destruct (get_img_crop _ _ _) as [img|e] eqn:Eg; [|done].
  destruct (py_setitem _ _ _) as [rgbs|] eqn:Es; [|done].
  destruct (preview args img) as [bgr|e] eqn:Ep; [|done].
  intros [= <-]. exists i, file, img, rgbs. simpl.
  rewrite <- Himgs, <- Hrgbs, <- Hsize, <- Hcrop, <- Hiw, <- Htr.
  repeat split; try done. now exists bgr.
Qed.

Lemma py_index_1 {A} (l : list A) :
  (2 <= length l)%nat -> py_index l 1 = Some 1%nat.
Proof.
  intros H. unfold py_index. rewrite bool_decide_true by lia. reflexivity.
Qed.

Lemma py_getitem_in_range {A} (l : list A) i :
  0 <= i < Z.of_nat (length l) -> exists x, py_getitem l i = Some x.
Proof.
  intros H. unfold py_getitem, py_index. rewrite bool_decide_true by lia.
  destruct (lookup_lt_is_Some_2 l (Z.to_nat i)) as [x Hx]; [lia|]. eauto.
Qed.

Lemma py_getitem_out_of_range {A} (l : list A) i :
  i < - Z.of_nat (length l) \/ Z.of_nat (length l) <= i ->
  py_getitem l i = None.
Proof.
  intros H. unfold py_getitem, py_index.
  rewrite !bool_decide_false by lia. reflexivity.
Qed.

Lemma py_setitem_None {A} (l : list A) i x :
  py_setitem l i x = None -> py_getitem l i = None.
Proof.
  unfold py_setitem, py_getitem. now destruct (py_index l i).
Qed.

Lemma py_setitem_length {A} (l l' : list A) i x :
  py_setitem l i x = Some l' -> length l' = length l.
Proof.
  unfold py_setitem. destruct (py_index l i); [|done].
  intros [= <-]. apply length_insert.
Qed.

Lemma set_style_same {A} (f : StyleWindow -> A) ia r si win :
  (forall rgbs s, f (with_style_rgbs rgbs s) = f s) ->
  (forall i s, f (with_idx i s) = f s) ->
  maintains (same f) (set_style args ia r si win).
Proof.
  intros Hrgbs Hidx. unfold set_style, select_idx, np_random_randint.
  same_auto;
    lazymatch goal with
    | |- maintains _ (modify _) => apply same_modify; intros; apply Hidx
    | |- maintains _ (load_style _ _ _) => now apply load_style_same
    end.
Qed.

(** X1: when the catalog cannot be listed the constructor raises before
    it has assigned anything.  Otherwise, whatever else it does, and also
    when it raises later, it leaves [img_size] at the size it was given and
    [crop_size] at 256: the crop size is at most the target size after
    construction exactly when the given size is at least 256. *)
Theorem constructor_sizes (path : string) (size : Z) (sc al : pynum)
    (interp : bool) (w : World) :
  match get_files path with
  | Raise e => StyleWindow_init args path size sc al interp w = (Raise e, w)
  | Ok _ =>
      let s := self (StyleWindow_init args path size sc al interp w).2 in
      img_size s = size /\ crop_size s = 256 /\
      (crop_size s <= img_size s <-> 256 <= size)
  end.
Proof.
  destruct (get_files path) as [files|e] eqn:Ef;
    [|now apply init_raise_files].
  cbv zeta. unfold StyleWindow_init.
  rewrite (run_bind_ok (lift (get_files path)) _ w files w)
    by (unfold lift; now rewrite Ef).
  rewrite (run_bind_ok (modify _) _ w tt _ eq_refl).
  set (w0 := update _ w).
  lazymatch goal with
  | |- img_size (self (?m w0).2) = _ /\ _ =>
      assert (maintains (same img_size) m) as Ki;
      [|assert (maintains (same crop_size) m) as Kc]
  end.
  1,2: same_auto; now apply set_style_same.
  pose proof (Ki w0) as Hi. pose proof (Kc w0) as Hc. unfold same in Hi, Hc.
  rewrite Hi, Hc. simpl. repeat split; lia.
Qed.

(** X2: a constructor that returns leaves a window whose stored index
    names an entry of the catalog read from the style directory, with two
    slots of which the first is loaded; when interpolating the second is
    loaded too and the weight is 1.0, otherwise the second slot is [None]
    and there is no [interp_weight] attribute. *)
Theorem constructor_postcondition (path : string) (size : Z) (sc al : pynum)
    (interp : bool) (w : World) :
  (StyleWindow_init args path size sc al interp w).1 = Ok tt ->
  let s := self (StyleWindow_init args path size sc al interp w).2 in
  constructed s /\
  get_files path = Ok (style_imgs s) /\
  if interp then
    interp_weight s = Some (float_of_Z 1) /\
    exists img1, style_rgbs s !! 1%nat = Some (Some img1)
  else
    interp_weight s = None /\ style_rgbs s !! 1%nat = Some None.
Proof.
  cbv zeta.
  destruct (get_files path) as [files|e] eqn:Ef.
  2: { now rewrite (init_raise_files _ _ _ _ _ _ _ Ef). }
  destruct (int_times_100 sc) as [position|e] eqn:Ep.
  2: { now rewrite (init_raise_position _ _ _ _ _ _ _ _ Ef Ep). }
  rewrite (init_run _ _ _ _ _ _ _ _ Ef Ep).
  set (w0 := pushes _ _).
  assert (self w0 = new_StyleWindow files size sc al) as Hw0.
  { unfold w0. destruct (pushes_fields
      (NamedWindow "Style Controls"
       :: init_trackbars files size
       ++ [CreateTrackbar "scale" "Style Controls" position 200 cb_set_scale])
      (update (fun _ => new_StyleWindow files size sc al) w)) as (_ & -> & _).
    done. }
  rewrite run_bind.
  destruct (set_style args None true 0 "Style Controls" w0)
    as [[[]|e] w1] eqn:E1; [|done].
  destruct (set_style_ok _ _ _ _ _ _ E1)
    as (i & file & img & rgbs & Hi & Hf & _ & Hs & Hr & Himgs & _ & _ & Hiw & _).
  rewrite Hw0 in Hf, Hs, Himgs, Hiw. simpl in Hf, Hs, Himgs, Hiw.
  unfold py_setitem in Hs.
  rewrite (py_index_0_nonempty [None; None]) in Hs by done.
  injection Hs as <-. simpl in Hr.
  destruct interp.
  - rewrite (run_bind_ok (emit _) _ w1 tt _ eq_refl).
    rewrite (run_bind_ok (modify _) _ _ tt _ eq_refl).
    rewrite (run_bind_ok (emit _) _ _ tt _ eq_refl).
    set (w2 := push _ (update _ (push _ w1))).
    destruct (set_style args None true 1 "style2" w2)
      as [[[]|e] w3] eqn:E2; [|done].
    intros _.
    destruct (set_style_ok _ _ _ _ _ _ E2)
      as (i' & file' & img1 & rgbs' & Hi' & Hf' & _ & Hs' & Hr' & Himgs'
          & _ & _ & Hiw' & _).
    assert (style_rgbs (self w2) = [Some img; None]) as Hr2 by exact Hr.
    assert (style_imgs (self w2) = files) as Hi2 by exact Himgs.
    rewrite Hr2 in Hs'. unfold py_setitem in Hs'.
    rewrite (py_index_1 [Some img; None]) in Hs' by (simpl; lia).
    injection Hs' as <-. simpl in Hr'.
    rewrite Hi2 in Hf', Himgs'. simpl.
    repeat split.
    + exists i', file'. now rewrite Himgs'.
    + now rewrite Hr'.
    + exists img. now rewrite Hr'.
    + now rewrite Himgs'.
    + now rewrite Hiw'.
    + exists img1. now rewrite Hr'.
  - intros _. simpl. repeat split.
    + exists i, file. now rewrite Himgs.
    + now rewrite Hr.
    + exists img. now rewrite Hr.
    + now rewrite Himgs.
    + exact Hiw.
    + now rewrite Hr.
Qed.

Lemma startup_catalog_error first w e :
  get_files (style_path args) = Raise e ->
  startup args first w
  = (Raise e, push (LoadModel (checkpoint args) (device args)) w).
Proof.
  intros Hfiles. unfold startup.
  rewrite (run_bind_ok (emit _) _ w tt _ eq_refl).
  apply run_bind_raise. now apply init_raise_files.
Qed.

(** X3: when the style directory cannot be listed, [main] ends with the
    error of [get_files], which nothing catches: the model has been loaded
    and nothing else has happened: no window and no trackbar is created,
    the camera is not started and the loop is never entered. *)
Theorem catalog_error_escapes_main (first : option Img) (ticks : list Tick)
    (w : World) (e : Exn) :
  get_files (style_path args) = Raise e ->
  main args first ticks w
  = (Raise e, push (LoadModel (checkpoint args) (device args)) w).
Proof.
  intros Hfiles. unfold main.
  now rewrite (run_bind_raise _ _ _ _ _
                 (startup_catalog_error first w e Hfiles)).
Qed.

(** X4: on a non-empty catalog a random selection stores an index inside
    the catalog, so the lookup of the style file succeeds: the call can
    raise only the error of the loader on that file, [IndexError] for a
    slot that does not exist, or the error of [cv2.resize] or
    [cv2.cvtColor] in [show_style] on the image loaded. *)
Theorem random_selection_in_range (ia : option Z) (si : Z) (win : string)
    (w : World) :
  style_imgs (self w) <> [] ->
  exists r file,
    idx (self (set_style args ia true si win w).2) = Some r /\
    0 <= r < Z.of_nat (length (style_imgs (self w))) /\
    py_getitem (style_imgs (self w)) r = Some file /\
    forall e,
      (set_style args ia true si win w).1 = Raise e ->
      get_img_crop file (img_size (self w)) (crop_size (self w)) = Raise e \/
      (e = IndexError /\ py_getitem (style_rgbs (self w)) si = None) \/
      (exists img,
         get_img_crop file (img_size (self w)) (crop_size (self w)) = Ok img /\
         preview args img = Raise e).
Proof.
  intros Hne.
  assert (0 < length (style_imgs (self w)))%nat as Hlen.
  { destruct (style_imgs (self w)); [done | simpl; lia]. }
  destruct (select_idx_random ia w) as [_ Hsel].
  destruct (Hsel Hlen) as (Hok & r & Hr & Hrange).
  destruct (py_getitem_in_range (style_imgs (self w)) r Hrange) as [file Hf].
  pose proof (select_idx_frame ia true w) as Hfr. cbv zeta in Hfr.
  exists r, file. unfold set_style. rewrite run_bind.
  destruct (select_idx ia true w) as [[[]|e0] w1]; simpl in *; [|done].
  destruct Hfr as (Himgs & Hrgbs & Hsize & Hcrop & _).
  rewrite load_style_run, Hr, Himgs, Hf, Hsize, Hcrop, Hrgbs.
  destruct (get_img_crop file _ _) as [img|e1] eqn:Eg.
  - destruct (py_setitem (style_rgbs (self w)) si (Some img)) as [rgbs|] eqn:Es;
      simpl.
    + destruct (preview args img) as [bgr|e1] eqn:Ep; simpl;
        rewrite Hr; repeat split; try done; try lia.
      intros e [= <-]. right. right. now exists img.
    + rewrite Hr. repeat split; try done; try lia.
      intros e [= <-]. right. left. split; [done|]. eapply py_setitem_None, Es.
  - simpl. rewrite Hr. repeat split; try done; try lia.
    intros e [= <-]. now left.
Qed.

(** ** More on the control surface *)

Lemma py_index_1_eq {A} (l : list A) k : py_index l 1 = Some k -> k = 1%nat.
Proof.
  unfold py_index. repeat case_bool_decide; intros [= <-]; lia.
Qed.

Lemma size_call_run c w :
  exists f,
    size_call args c w = load_style args 0 "Style Controls" (update f w) /\
    (forall s, idx (f s) = idx s) /\
    (forall s, style_imgs (f s) = style_imgs s) /\
    (forall s, style_rgbs (f s) = style_rgbs s).
Proof.
  destruct c as [v|v]; simpl.
  - exists (with_img_size (Z.max v (crop_size (self w)))).
    now rewrite set_size_run.
  - exists (with_crop_size (Z.min v (img_size (self w)))).
    now rewrite set_crop_size_run.
Qed.

(** X5: [set_idx i] with [i] outside the catalog (not in
    [-len, len)) raises [IndexError] after it has stored [i]: the slots
    and the trace are untouched, only the index has changed, and from then
    on every [set_size] and [set_crop_size] call raises [IndexError] as
    well, until a [set_idx] call stores another index: that call behaves as
    if the failed one had not been made. *)
Theorem set_idx_out_of_range (i : Z) (w : World) :
  i < - Z.of_nat (length (style_imgs (self w))) \/
  Z.of_nat (length (style_imgs (self w))) <= i ->
  set_idx args i w = (Raise IndexError, update (with_idx i) w) /\
  (forall c, (size_call args c (update (with_idx i) w)).1 = Raise IndexError) /\
  (forall j, set_idx args j (update (with_idx i) w) = set_idx args j w).
Proof.
  intros Hout.
  pose proof (py_getitem_out_of_range _ _ Hout) as Hnone.
  split; [|split].
  - rewrite set_idx_run, load_style_run. simpl. now rewrite Hnone.
  - intros c. destruct (size_call_run c (update (with_idx i) w))
      as (f & -> & Hidx & Himgs & _).
    rewrite load_style_run. simpl. rewrite Hidx, Himgs. simpl.
    now rewrite Hnone.
  - intros j. reflexivity.
Qed.

(** X6: the stored index is one attribute shared by both slots.  After a
    call that loaded the second slot from a catalog entry, a [set_size] or
    [set_crop_size] call that returns reloads the first slot from that same
    entry (at the new sizes), while the second slot keeps the image loaded
    at the old sizes. *)
Theorem size_call_after_second_style (ia : option Z) (r : bool)
    (c : SizeCall) (w w1 w2 : World) :
  set_style args ia r 1 "style2" w = (Ok tt, w1) ->
  size_call args c w1 = (Ok tt, w2) ->
  exists file img1 img0,
    get_img_crop file (img_size (self w)) (crop_size (self w)) = Ok img1 /\
    style_rgbs (self w1) !! 1%nat = Some (Some img1) /\
    get_img_crop file (img_size (self w2)) (crop_size (self w2)) = Ok img0 /\
    style_rgbs (self w2) !! 0%nat = Some (Some img0) /\
    style_rgbs (self w2) !! 1%nat = Some (Some img1).
Proof.
  intros Hset Hcall.
  destruct (set_style_ok _ _ _ _ _ _ Hset)
    as (i & file & img1 & rgbs & Hi & Hf & Hg & Hs & Hr & Himgs & _).
  assert (style_rgbs (self w1) !! 1%nat = Some (Some img1)) as Hslot1.
  { rewrite Hr. pose proof (py_getitem_setitem _ _ _ _ Hs) as Hget.
    unfold py_getitem in Hget.
    destruct (py_index rgbs 1) as [k|] eqn:Ek; [|done].
    now apply py_index_1_eq in Ek as ->. }
  destruct (size_call_run c w1) as (f & Hrun & Hidx & Himgs' & Hrgbs').
  rewrite Hrun in Hcall.
  destruct (reload_first_slot_only (update f w1) w1 (Hrgbs' _))
    as [Hkeep Hload].
  rewrite Hcall in Hkeep, Hload. simpl in Hkeep, Hload.
  destruct (Hload eq_refl) as (i' & file' & img0 & Hi' & Hf' & Hg' & Hs0).
  pose proof (load_style_same idx 0 "Style Controls" (fun _ _ => eq_refl)
                (update f w1)) as Kidx.
  pose proof (load_style_same style_imgs 0 "Style Controls"
                (fun _ _ => eq_refl) (update f w1)) as Kimgs.
  unfold same in Kidx, Kimgs. rewrite Hcall in Kidx, Kimgs.
  simpl in Kidx, Kimgs. rewrite Hidx in Kidx. rewrite Himgs' in Kimgs.
  assert (i' = i) as -> by congruence.
  assert (file' = file) as -> by congruence.
  exists file, img1, img0. repeat split; try done. congruence.
Qed.

(** ** Keys, quitting and counting *)

Lemma run_bind_inv {A B} (m : M A) (k : A -> M B) w b w' :
  mbind m k w = (Ok b, w') ->
  exists a w1, m w = (Ok a, w1) /\ k a w1 = (Ok b, w').
Proof.
  rewrite run_bind. destruct (m w) as [[a|e] w1]; [eauto | done].
Qed.

Lemma run_ui_ok moves w : (run_ui args moves w).1 = Ok tt.
Proof.
  revert w. induction moves as [|[cb v] rest IH]; intros w; [done|].
  cbn [run_ui]. rewrite run_bind. unfold swallow at 1. apply IH.
Qed.

Lemma waitKey_run t w :
  cv2_waitKey args t w = (Ok (key t), (run_ui args (ui t) w).2).
Proof.
  unfold cv2_waitKey. rewrite run_bind.
  pose proof (run_ui_ok (ui t) w) as H.
  destruct (run_ui args (ui t) w) as [[[]|e] w1]; simpl in *; done.
Qed.

(* the decision the key handling takes, when it returns *)
Lemma handle_key_ctl t keep_colors count w ctl w' :
  handle_key args t keep_colors count w = (Ok ctl, w') ->
  ctl = if Z.land (key t) 255 =? 114 then Next keep_colors count
        else if Z.land (key t) 255 =? 99 then Next (negb keep_colors) count
        else if Z.land (key t) 255 =? 113 then Break
        else Next keep_colors count.
Proof.
  unfold handle_key. rewrite (run_bind_ok _ _ _ _ _ (waitKey_run t w)).
  destruct (Z.land (key t) 255 =? 114).
  - intros H. apply run_bind_inv in H as (? & ? & _ & H).
    apply run_bind_inv in H as (? & ? & _ & H). now injection H.
  - destruct (Z.land (key t) 255 =? 99).
    + intros H. apply run_bind_inv in H as (? & ? & _ & H). now injection H.
    + destruct (Z.land (key t) 255 =? 113); intros H; now injection H.
Qed.

Lemma body_ctl out t keep_colors count w ctl w' :
  body args out t keep_colors count w = (Ok ctl, w') ->
  match cam t with
  | None => ctl = Break /\ w' = w
  | Some _ =>
      ctl = if Z.land (key t) 255 =? 114 then Next keep_colors (count + 1)
            else if Z.land (key t) 255 =? 99
                 then Next (negb keep_colors) (count + 1)
            else if Z.land (key t) 255 =? 113 then Break
            else Next keep_colors (count + 1)
  end.
Proof.
  unfold body. destruct (cam t) as [frame|].
  - cbv zeta. intros H.
    apply run_bind_inv in H as (? & ? & _ & H).
    apply run_bind_inv in H as (? & ? & _ & H).
    apply run_bind_inv in H as (? & ? & _ & H).
    apply run_bind_inv in H as (? & ? & _ & H).
    now apply handle_key_ctl in H.
  - intros [= <- <-]. done.
Qed.

(** X8: a pass ends the loop in two cases only: the camera gave no frame,
    in which case nothing at all is done, or the pass went through and the
    low byte of the key code is that of [q].  Otherwise a pass that returns
    goes on with the frame count one higher, and with [keep_colors] flipped
    exactly when the low byte of the key code is that of [c]. *)
Theorem pass_outcome (out : Z * Z) (t : Tick) (keep_colors : bool)
    (count : Z) (w : World) :
  (cam t = None -> body args out t keep_colors count w = (Ok Break, w)) /\
  forall ctl w',
    body args out t keep_colors count w = (Ok ctl, w') ->
    (ctl = Break <-> cam t = None \/ Z.land (key t) 255 = 113) /\
    (ctl <> Break ->
     exists keep_colors',
       ctl = Next keep_colors' (count + 1) /\
       (keep_colors' <> keep_colors <-> Z.land (key t) 255 = 99)).
Proof.
  split.
  - intros Hcam. unfold body. now rewrite Hcam.
  - intros ctl w' H. apply body_ctl in H.
    destruct (cam t) as [frame|].
    + destruct (Z.eqb_spec (Z.land (key t) 255) 114) as [E1|E1].
      { subst ctl. split.
        - split; [done | intros [|]; [done | lia]].
        - intros _. exists keep_colors. split; [done|].
          split; [done | lia]. }
      destruct (Z.eqb_spec (Z.land (key t) 255) 99) as [E2|E2].
      { subst ctl. split.
        - split; [done | intros [|]; [done | lia]].
        - intros _. exists (negb keep_colors). split; [done|].
          split; [done | now destruct keep_colors]. }
      destruct (Z.eqb_spec (Z.land (key t) 255) 113) as [E3|E3].
      { subst ctl. split; [|done]. split; [now right | done]. }
      subst ctl. split.
      * split; [done | intros [|]; done].
      * intros _. exists keep_colors. split; [done|]. split; done.
    + destruct H as [-> ->]. split; [split; [now left | done] | done].
Qed.

(** X9: the key code is used through its low byte only: two ticks with
    the same trackbar moves whose key codes agree modulo 256 are handled
    alike. *)
Theorem key_low_byte_only (t t' : Tick) (keep_colors : bool) (count : Z)
    (w : World) :
  ui t = ui t' ->
  key t mod 256 = key t' mod 256 ->
  handle_key args t keep_colors count w
  = handle_key args t' keep_colors count w.
Proof.
  intros Hui Hkey.
  assert (forall k, Z.land k 255 = k mod 256) as Hland.
  { intros k. change 255 with (Z.ones 8). now rewrite Z.land_ones. }
  unfold handle_key.
  rewrite (run_bind_ok _ _ _ _ _ (waitKey_run t w)).
  rewrite (run_bind_ok _ _ _ _ _ (waitKey_run t' w)).
  now rewrite !Hland, Hui, Hkey.
Qed.

(** X10: pressing [c] while [keep_colors] is off ends the session at the
    next frame: the pass in which the key arrives goes on with
    [keep_colors] on, and the pass after it, given a frame, raises. *)
Theorem c_key_ends_session (out : Z * Z) (t t2 : Tick) (rest : list Tick)
    (frame frame2 : Img) (count : Z) (w : World) (ctl : LoopCtl)
    (w1 : World) :
  cam t = Some frame ->
  Z.land (key t) 255 = 99 ->
  body args out t false count w = (Ok ctl, w1) ->
  cam t2 = Some frame2 ->
  ctl = Next true (count + 1) /\
  exists e, (loop args out (t :: t2 :: rest) false count w).1 = Raise e.
Proof.
  intros Hcam Hkey Hbody Hcam2.
  pose proof (body_ctl _ _ _ _ _ _ _ Hbody) as Hctl.
  rewrite Hcam, Hkey in Hctl. simpl in Hctl. subst ctl.
  split; [done|].
  cbn [loop]. rewrite (run_bind_ok _ _ _ _ _ Hbody). rewrite run_bind.
  unfold body at 1. rewrite Hcam2. cbv zeta. rewrite run_bind.
  destruct (prepare_keep_colors_raises frame2 (count + 1 + 1) w1) as [e He].
  destruct (prepare args frame2 true (count + 1 + 1) w1) as [[img|e'] w2];
    simpl in *; [done | eauto].
Qed.

(** X11: when the loop is still running after the ticks it was given, every
    one of them brought a frame, none carried the [q] key, and the frame
    count has grown by the number of ticks. *)
Theorem loop_counts_frames (out : Z * Z) (ticks : list Tick)
    (keep_colors : bool) (count : Z) (w : World) (keep_colors' : bool)
    (count' : Z) (w' : World) :
  loop args out ticks keep_colors count w
  = (Ok (Running keep_colors' count'), w') ->
  count' = count + Z.of_nat (length ticks) /\
  Forall (fun t => cam t <> None /\ Z.land (key t) 255 <> 113) ticks.
Proof.
  revert keep_colors count w.
  induction ticks as [|t rest IH]; intros keep_colors count w; cbn [loop].
  - intros [= <- <- <-]. split; [simpl; lia | constructor].
  - intros H. apply run_bind_inv in H as (ctl & w1 & Hbody & H).
    apply body_ctl in Hbody.
    destruct ctl as [|kc c]; [done|].
    destruct (IH _ _ _ H) as [-> Hall].
    destruct (cam t) as [frame|] eqn:Ecam; [|now destruct Hbody].
    destruct (Z.eqb_spec (Z.land (key t) 255) 114) as [E1|E1];
      [|destruct (Z.eqb_spec (Z.land (key t) 255) 99) as [E2|E2];
        [|destruct (Z.eqb_spec (Z.land (key t) 255) 113) as [E3|E3]]];
      try done; injection Hbody as -> ->;
      (split; [rewrite length_cons; lia|]);
      (constructor; [split; [congruence | lia] | exact Hall]).
Qed.

(** ** What a pass leaves alone *)

#[local] Instance untouched_preorder : PreOrder untouched.
Proof.
  split.
  - intros w. now split.
  - intros w1 w2 w3 [H1 H2] [H3 H4]. split; congruence.
Qed.

Lemma untouched_emit e : maintains untouched (emit e).
Proof. intros w. now split. Qed.

Ltac untouched_auto :=
  repeat first
    [ maintains_step
    | lazymatch goal with
      | |- maintains _ (emit _) => apply untouched_emit
      end ].

Lemma untouched_handle_key t keep_colors count :
  ui t = [] ->
  Z.land (key t) 255 <> 114 ->
  maintains untouched (handle_key args t keep_colors count).
Proof.
  intros Hui Hkey w. unfold handle_key.
  rewrite (run_bind_ok _ _ _ _ _ (waitKey_run t w)), Hui.
  rewrite (proj2 (Z.eqb_neq _ _) Hkey). cbn [run_ui].
  destruct (Z.land (key t) 255 =? 99);
    [|destruct (Z.land (key t) 255 =? 113)]; now split.
Qed.

(** X12: stylizing a frame does not touch the control state.  With noise
    mode off, no periodic reload, [keep_colors] off, no trackbar move and a
    key other than [r], a pass leaves the [StyleWindow] object and the
    random generator exactly as they were, whatever the engine returns. *)
Theorem quiet_pass_leaves_state (out : Z * Z) (t : Tick) (count : Z)
    (w : World) :
  noise args = false ->
  random args <= 0 ->
  ui t = [] ->
  Z.land (key t) 255 <> 114 ->
  self (body args out t false count w).2 = self w /\
  rng (body args out t false count w).2 = rng w.
Proof.
  intros Hnoise Hrandom Hui Hkey.
  assert (maintains untouched (body args out t false count)) as H;
    [|exact (H w)].
  unfold body. destruct (cam t) as [frame|]; [|untouched_auto].
  cbv zeta. unfold prepare, content_stage, auto_reload, infer, stitch, output.
  rewrite Hnoise, (bool_decide_false (0 < random args)) by lia.
  cbn [andb].
  untouched_auto. now apply untouched_handle_key.
Qed.

(** ** The output sink *)

#[local] Instance sink_synced_preorder : PreOrder sink_synced.
Proof.
  split.
  - intros w. exists []. now rewrite app_nil_r.
  - intros w1 w2 w3 (e1 & H1 & S1) (e2 & H2 & S2).
    exists (e1 ++ e2). rewrite H2, H1, app_assoc. split; [done|].
    unfold shown_frames, video_writes in *.
    now rewrite !omap_app, S1, S2.
Qed.

Lemma off_sink_unseen evs :
  Forall off_sink evs -> shown_frames evs = [] /\ video_writes evs = [].
Proof.
  intros H. split; (eapply omap_nothing; [|exact H]); intros e He;
    destruct e; try done; simpl in *.
  destruct He as [-> | ->]; reflexivity.
Qed.

Lemma synced_of_appends {A} P (m : M A) :
  (forall e, P e -> off_sink e) ->
  maintains (appends P) m -> maintains sink_synced m.
Proof.
  intros HP Hm w. destruct (Hm w) as (evs & Htr & Hall).
  exists evs. split; [done|].
  destruct (off_sink_unseen evs) as [-> ->]; [|done].
  eapply Forall_impl; eauto.
Qed.

Lemma appends_stitch_any P stylized_rgb :
  maintains (appends P) (stitch args stylized_rgb).
Proof. unfold stitch. appends_auto. Qed.

Lemma appends_handle_key_control t keep_colors count :
  maintains (appends control_event) (handle_key args t keep_colors count).
Proof.
  unfold handle_key, cv2_waitKey.
  appends_auto;
    lazymatch goal with
    | |- maintains _ (run_ui _ _) => appends_from appends_run_ui
    | |- maintains _ _ => appends_reload
    | |- _ => exact I
    end.
Qed.

Lemma appends_startup first :
  maintains (appends startup_event) (startup args first).
Proof.
  unfold startup, StyleWindow_init.
  appends_auto;
    lazymatch goal with
    | |- maintains _ _ => appends_reload
    | |- _ => exact I
    end.
Qed.

Ltac off_sink_from H :=
  eapply synced_of_appends; [| apply H];
  let e := fresh "e" in intros e; destruct e; simpl; tauto.

Lemma synced_output path out stylized_rgb :
  video_out args = Some path ->
  maintains sink_synced (output args out stylized_rgb).
Proof.
  intros Hvideo w. unfold output. rewrite Hvideo.
  unfold mbind, lift, emit, mret, push.
  destruct (cv2_cvtColor stylized_rgb COLOR_RGB2BGR) as [bgr|e]; simpl.
  2: { exists []. now rewrite app_nil_r. }
  destruct (cv2_resize bgr out) as [resized|e]; simpl.
  2: { exists []. now rewrite app_nil_r. }
  exists [VideoWrite resized; ImShow "AdaIN Style" resized; FpsUpdate].
  split; [|reflexivity]. now rewrite <- !app_assoc.
Qed.

Lemma synced_body path out t keep_colors count :
  video_out args = Some path ->
  maintains sink_synced (body args out t keep_colors count).
Proof.
  intros Hvideo. unfold body.
  repeat maintains_step.
  - off_sink_from appends_prepare.
  - off_sink_from appends_infer_calls.
  - off_sink_from (appends_stitch_any (fun _ => False)).
  - now apply (synced_output path).
  - off_sink_from appends_handle_key_control.
Qed.

Lemma synced_loop path out ticks keep_colors count :
  video_out args = Some path ->
  maintains sink_synced (loop args out ticks keep_colors count).
Proof.
  intros Hvideo. revert keep_colors count.
  induction ticks as [|t rest IH]; intros keep_colors count; cbn [loop].
  - repeat maintains_step.
  - repeat maintains_step; [now apply (synced_body path) | apply IH].
Qed.

(** X13: with video output on, the frames written to the video file are
    the frames shown in the main window, one for one and in the same
    order, in every run of [main], however it ends. *)
Theorem video_file_gets_shown_frames (path : string) (first : option Img)
    (ticks : list Tick) (w : World) :
  video_out args = Some path ->
  exists evs,
    trace (main args first ticks w).2 = trace w ++ evs /\
    shown_frames evs = video_writes evs.
Proof.
  intros Hvideo.
  assert (maintains sink_synced (main args first ticks)) as H;
    [|exact (H w)].
  unfold main. repeat maintains_step.
  - off_sink_from appends_startup.
  - now apply (synced_loop path).
  - off_sink_from appends_shutdown.
Qed.

Lemma appends_body_no_video out t keep_colors count :
  video_out args = None ->
  maintains (appends no_video_event) (body args out t keep_colors count).
Proof.
  intros Hvideo. unfold body. appends_auto.
  - appends_from appends_prepare.
  - appends_from appends_infer_calls.
  - apply appends_stitch_any.
  - unfold output. rewrite Hvideo. appends_auto; exact I.
  - appends_from appends_handle_key_control.
Qed.

Lemma appends_loop_no_video out ticks keep_colors count :
  video_out args = None ->
  maintains (appends no_video_event) (loop args out ticks keep_colors count).
Proof.
  intros Hvideo. revert keep_colors count.
  induction ticks as [|t rest IH]; intros keep_colors count; cbn [loop].
  - appends_auto.
  - appends_auto; [now apply appends_body_no_video | apply IH].
Qed.

(** X14: without [--video-out] no run of [main] creates a video writer,
    writes a frame to one, or releases one. *)
Theorem no_video_out_no_writer (first : option Img) (ticks : list Tick)
    (w : World) :
  video_out args = None ->
  exists evs,
    trace (main args first ticks w).2 = trace w ++ evs /\
    Forall no_video_event evs.
Proof.
  intros Hvideo.
  assert (maintains (appends no_video_event) (main args first ticks)) as H;
    [|exact (H w)].
  unfold main, startup, shutdown. rewrite Hvideo. appends_auto;
    lazymatch goal with
    | |- maintains _ (StyleWindow_init _ _ _ _ _ _) =>
        unfold StyleWindow_init; appends_auto;
        lazymatch goal with
        | |- maintains _ _ => appends_reload
        | |- _ => exact I
        end
    | |- maintains _ (loop _ _ _ _ _) => now apply appends_loop_no_video
    | |- _ => exact I
    end.
Qed.

(** ** The second slot in single-style mode *)

Lemma set_style_slot1 ia r win :
  maintains (same (fun s => style_rgbs s !! 1%nat))
    (set_style args ia r 0 win).
Proof.
  unfold set_style, select_idx, np_random_randint. same_auto.
  apply load_style_slot1.
Qed.

Lemma slot1_callback cb v :
  maintains (same (fun s => style_rgbs s !! 1%nat)) (run_callback args cb v).
Proof.
  destruct cb; simpl;
    unfold set_idx, set_size, set_crop_size, set_alpha, set_scale, set_interp;
    same_auto; apply set_style_slot1.
Qed.

Lemma slot1_run_ui moves :
  maintains (same (fun s => style_rgbs s !! 1%nat)) (run_ui args moves).
Proof.
  induction moves as [|[cb v] rest IH]; simpl; same_auto.
  - apply slot1_callback.
  - exact IH.
Qed.

Ltac slot1_auto :=
  repeat first
    [ maintains_step
    | same_step
    | lazymatch goal with
      | |- maintains _ (set_style _ _ _ 0 _) => apply set_style_slot1
      | |- maintains _ (run_ui _ _) => apply slot1_run_ui
      end ].

Lemma slot1_body out t keep_colors count :
  interpolate args = false ->
  maintains (same (fun s => style_rgbs s !! 1%nat))
    (body args out t keep_colors count).
Proof.
  intros Hinterp.
  unfold body, prepare, content_stage, auto_reload, recolor_style, infer,
    stitch, output, handle_key, cv2_waitKey.
  rewrite Hinterp. cbn [negb andb]. slot1_auto.
Qed.

Lemma slot1_loop out ticks keep_colors count :
  interpolate args = false ->
  maintains (same (fun s => style_rgbs s !! 1%nat))
    (loop args out ticks keep_colors count).
Proof.
  intros Hinterp. revert keep_colors count.
  induction ticks as [|t rest IH]; intros keep_colors count; cbn [loop].
  - slot1_auto.
  - slot1_auto; [now apply slot1_body | apply IH].
Qed.

Lemma init_slot1 path size sc al w files :
  get_files path = Ok files ->
  style_rgbs (self (StyleWindow_init args path size sc al false w).2) !! 1%nat
  = Some None.
Proof.
  intros Hfiles. unfold StyleWindow_init.
  rewrite (run_bind_ok (lift (get_files path)) _ w files w)
    by (unfold lift; now rewrite Hfiles).
  rewrite (run_bind_ok (modify _) _ w tt _ eq_refl).
  set (w0 := update _ w).
  lazymatch goal with
  | |- style_rgbs (self (?m w0).2) !! _ = _ =>
      assert (maintains (same (fun s => style_rgbs s !! 1%nat)) m) as K
        by slot1_auto
  end.
  pose proof (K w0) as H0. unfold same in H0. now rewrite H0.
Qed.

Lemma startup_slot1 first w files :
  interpolate args = false ->
  get_files (style_path args) = Ok files ->
  style_rgbs (self (startup args first w).2) !! 1%nat = Some None.
Proof.
  intros Hinterp Hfiles. unfold startup.
  rewrite (run_bind_ok (emit _) _ w tt _ eq_refl), run_bind, Hinterp.
  pose proof (init_slot1 (style_path args) (style_size args) (arg_scale args)
                (arg_alpha args)
                (push (LoadModel (checkpoint args) (device args)) w)
                files Hfiles) as H0.
  destruct (StyleWindow_init _ _ _ _ _ _ _) as [[[]|e] w1]; simpl in H0;
    [|exact H0].
  lazymatch goal with
  | |- style_rgbs (self (?m w1).2) !! _ = _ =>
      assert (maintains (same (fun s => style_rgbs s !! 1%nat)) m) as K
        by slot1_auto
  end.
  pose proof (K w1) as H1. unfold same in H1. now rewrite H1.
Qed.

(** X15: without [--interpolate] the second style slot is never loaded:
    after every run of [main] that got as far as creating the
    [StyleWindow], however it ends, [style_rgbs[1]] is [None].  (When the
    catalog cannot be listed there is no such object: [main] is left with
    the error of [get_files] before anything is assigned.) *)
Theorem single_style_second_slot_empty (first : option Img)
    (ticks : list Tick) (w : World) :
  interpolate args = false ->
  match get_files (style_path args) with
  | Ok _ => style_rgbs (self (main args first ticks w).2) !! 1%nat = Some None
  | Raise e =>
      main args first ticks w
      = (Raise e, push (LoadModel (checkpoint args) (device args)) w)
  end.
Proof.
  intros Hinterp.
  destruct (get_files (style_path args)) as [files|e] eqn:Hfiles.
  2: { unfold main.
       now rewrite (run_bind_raise _ _ _ _ _
                      (startup_catalog_error first w e Hfiles)). }
  unfold main. rewrite run_bind.
  pose proof (startup_slot1 first w files Hinterp Hfiles) as H0.
  destruct (startup args first w) as [[out|e] w1]; simpl in H0; [|exact H0].
  lazymatch goal with
  | |- style_rgbs (self (?m w1).2) !! _ = _ =>
      assert (maintains (same (fun s => style_rgbs s !! 1%nat)) m) as K
  end.
  { unfold shutdown. slot1_auto. now apply slot1_loop. }
  pose proof (K w1) as H1. unfold same in H1. now rewrite H1.
Qed.

(** ** Shutdown *)

Lemma shutdown_run w :
  (shutdown args w).1 = Ok tt /\
  trace (shutdown args w).2 = trace w ++ shutdown_trace args.
Proof.
  unfold shutdown, shutdown_trace, mbind, emit, mret, push.
  destruct (video_out args); simpl; split; try done;
    now rewrite <- !app_assoc.
Qed.

Lemma startup_not_shutdown e : startup_event e -> ~ shutdown_event e.
Proof. destruct e; simpl; tauto. Qed.

Lemma pass_not_shutdown out e : pass_event out e -> ~ shutdown_event e.
Proof. destruct e; simpl; tauto. Qed.

(** X16: [main] releases its resources exactly when the loop ends through
    a [break].  Then the trace ends with [fps.stop()], the two reports,
    [cap.stop()], the release of the video writer if there is one, and
    [destroyAllWindows()].  When an exception leaves [main] (or the loop is
    still running) none of these calls has been made. *)
Theorem shutdown_only_after_break (first : option Img) (ticks : list Tick)
    (w : World) :
  exists evs,
    Forall (fun e => ~ shutdown_event e) evs /\
    trace (main args first ticks w).2
    = trace w ++ evs
      ++ match (main args first ticks w).1 with
         | Ok Stopped => shutdown_trace args
         | _ => []
         end.
Proof.
  unfold main. rewrite run_bind.
  destruct (appends_startup first w) as (e1 & H1 & F1).
  destruct (startup args first w) as [[out|e] w1]; simpl in H1.
  - rewrite run_bind.
    destruct (appends_loop out ticks (arg_keep_colors args) 0 w1)
      as (e2 & H2 & F2).
    assert (Forall (fun e => ~ shutdown_event e) (e1 ++ e2)) as Hall.
    { apply Forall_app. split; (eapply Forall_impl; [eassumption|]).
      - apply startup_not_shutdown.
      - apply pass_not_shutdown. }
    exists (e1 ++ e2). split; [exact Hall|].
    destruct (loop args out ticks (arg_keep_colors args) 0 w1)
      as [[[|kc c]|e] w2]; simpl in H2.
    + rewrite run_bind. destruct (shutdown_run w2) as [Hok Htr].
      destruct (shutdown args w2) as [[[]|e] w3]; simpl in *; [|done].
      now rewrite Htr, H2, H1, <- !app_assoc.
    + simpl. now rewrite H2, H1, app_nil_r, <- app_assoc.
    + simpl. now rewrite H2, H1, app_nil_r, <- app_assoc.
  - exists e1. split.
    + eapply Forall_impl; [eassumption | apply startup_not_shutdown].
    + simpl. now rewrite H1, app_nil_r.
Qed.

(** ** One engine call, one frame *)

Lemma engine_calls_app l1 l2 :
  engine_calls (l1 ++ l2) = engine_calls l1 ++ engine_calls l2.
Proof. apply omap_app. Qed.

Lemma shown_frames_app l1 l2 :
  shown_frames (l1 ++ l2) = shown_frames l1 ++ shown_frames l2.
Proof. apply omap_app. Qed.

Lemma off_sink_no_call P evs :
  (forall e, P e -> off_sink e /\ ~ engine_event e) ->
  Forall P evs ->
  shown_frames evs = [] /\ engine_calls evs = [].
Proof.
  intros HP H. split.
  - apply off_sink_unseen. eapply Forall_impl; [exact H|].
    intros e He. now apply HP.
  - eapply omap_nothing; [|exact H]. intros e He.
    destruct (HP e He) as [_ Hn].
    destruct e; simpl in *; try done; exfalso; apply Hn; exact I.
Qed.

(* a call of [infer] that returns has called the engine once *)
Lemma infer_ok_trace image_rgb w stylized w' :
  infer args image_rgb w = (Ok stylized, w') ->
  exists call, trace w' = trace w ++ [call] /\ engine_event call.
Proof.
  unfold infer. destruct (negb (interpolate args)); intros H.
  - apply run_bind_inv in H as (rgbs & w1 & [= <- <-] & H).
    apply run_bind_inv in H as (s0 & w1 & H0 & H).
    assert (w1 = w) as ->.
    { destruct (py_getitem _ _); [now injection H0 | done]. }
    apply run_bind_inv in H as (a & w1 & [= <- <-] & H).
    apply run_bind_inv in H as ([] & w1 & [= <-] & H).
    injection H as _ <-. eexists. split; [reflexivity | exact I].
  - apply run_bind_inv in H as (x & w1 & H0 & H).
    assert (w1 = w) as ->.
    { unfold getattr in H0. destruct (interp_weight (self w));
        [now injection H0 | done]. }
    apply run_bind_inv in H as (x' & w1 & H1 & H).
    assert (w1 = w) as ->.
    { unfold getattr in H1. destruct (interp_weight (self w));
        [now injection H1 | done]. }
    apply run_bind_inv in H as (rgbs & w1 & [= <- <-] & H).
    apply run_bind_inv in H as (a & w1 & [= <- <-] & H).
    apply run_bind_inv in H as ([] & w1 & [= <-] & H).
    injection H as _ <-. eexists. split; [reflexivity | exact I].
Qed.

(* a call of [output] that returns has shown one frame *)
Lemma output_ok_trace out stylized_rgb w w' :
  output args out stylized_rgb w = (Ok tt, w') ->
  exists evs,
    trace w' = trace w ++ evs /\
    length (shown_frames evs) = 1%nat /\ engine_calls evs = [].
Proof.
  unfold output, mbind, lift, emit, mret, push.
  destruct (cv2_cvtColor stylized_rgb COLOR_RGB2BGR) as [bgr|e]; [|done].
  destruct (video_out args); simpl.
  - destruct (cv2_resize bgr out) as [resized|e]; [|done]. simpl.
    intros [= <-].
    exists [VideoWrite resized; ImShow "AdaIN Style" resized; FpsUpdate].
    simpl. rewrite <- !app_assoc. now repeat split.
  - intros [= <-]. exists [ImShow "AdaIN Style" bgr; FpsUpdate].
    simpl. rewrite <- !app_assoc. now repeat split.
Qed.

Lemma body_one_call_one_frame out t keep_colors count w ctl w' frame :
  cam t = Some frame ->
  body args out t keep_colors count w = (Ok ctl, w') ->
  exists evs,
    trace w' = trace w ++ evs /\
    length (shown_frames evs) = 1%nat /\
    length (engine_calls evs) = 1%nat.
Proof.
  intros Hcam. unfold body. rewrite Hcam. cbv zeta. intros H.
  apply run_bind_inv in H as (img & w1 & Hprep & H).
  apply run_bind_inv in H as (s1 & w2 & Hinfer & H).
  apply run_bind_inv in H as (s2 & w3 & Hstitch & H).
  apply run_bind_inv in H as ([] & w4 & Hout & Hkey).
  pose proof (appends_prepare frame keep_colors (count + 1) w) as (e1 & T1 & F1).
  rewrite Hprep in T1. simpl in T1.
  destruct (infer_ok_trace _ _ _ _ Hinfer) as (call & T2 & Hcall).
  pose proof (appends_stitch_any (fun _ => False) s1 w2) as (e3 & T3 & F3).
  rewrite Hstitch in T3. simpl in T3.
  destruct (output_ok_trace _ _ _ _ Hout) as (e4 & T4 & S4 & C4).
  pose proof (appends_handle_key_control t keep_colors (count + 1) w4)
    as (e5 & T5 & F5).
  rewrite Hkey in T5. simpl in T5.
  destruct (off_sink_no_call prepare_event e1) as [S1 C1]; [|exact F1|].
  { intros e He. destruct e; simpl in *; tauto. }
  destruct (off_sink_no_call (fun _ => False) e3) as [S3 C3]; [done|exact F3|].
  destruct (off_sink_no_call control_event e5) as [S5 C5]; [|exact F5|].
  { intros e He. destruct e; simpl in *; tauto. }
  assert (shown_frames [call] = [] /\ length (engine_calls [call]) = 1%nat)
    as [S2 C2] by now destruct call.
  exists (e1 ++ [call] ++ e3 ++ e4 ++ e5). split.
  - rewrite T5, T4, T3, T2, T1, <- !app_assoc. reflexivity.
  - rewrite !shown_frames_app, !engine_calls_app, !length_app.
    rewrite S1, S2, S3, S4, S5, C1, C2, C3, C4, C5. simpl. lia.
Qed.

(** X17: every frame shown in the main window went through the engine.
    When the loop is still running after the ticks it was given, it has
    called the engine once per tick and shown one frame per tick. *)
Theorem loop_one_call_per_frame (out : Z * Z) (ticks : list Tick)
    (keep_colors : bool) (count : Z) (w : World) (keep_colors' : bool)
    (count' : Z) (w' : World) :
  loop args out ticks keep_colors count w
  = (Ok (Running keep_colors' count'), w') ->
  exists evs,
    trace w' = trace w ++ evs /\
    length (shown_frames evs) = length ticks /\
    length (engine_calls evs) = length ticks.
Proof.
  revert keep_colors count w.
  induction ticks as [|t rest IH]; intros keep_colors count w; cbn [loop].
  - intros [= <- <- <-]. exists []. now rewrite app_nil_r.
  - intros H. apply run_bind_inv in H as (ctl & w1 & Hbody & H).
    destruct ctl as [|kc c]; [unfold mret in H; discriminate H|].
    destruct (cam t) as [frame|] eqn:Hcam.
    2: { unfold body in Hbody. rewrite Hcam in Hbody. discriminate Hbody. }
    destruct (body_one_call_one_frame _ _ _ _ _ _ _ _ Hcam Hbody)
      as (e1 & T1 & S1 & C1).
    destruct (IH _ _ _ H) as (e2 & T2 & S2 & C2).
    exists (e1 ++ e2). split.
    + now rewrite T2, T1, <- app_assoc.
    + rewrite shown_frames_app, engine_calls_app, !length_app, length_cons.
      lia.
Qed.

(** ** From the alpha trackbar to the screen *)

(* a pass that neither makes noise, nor reloads, nor recolours: what it
   has done when the engine is about to be called *)
Lemma prepare_quiet_run frame count w image_rgb w1 :
  noise args = false ->
  random args <= 0 ->
  prepare args frame false count w = (Ok image_rgb, w1) ->
  exists frame_resize,
    cv2_resize_by frame (scale (self w)) (scale (self w)) = Ok frame_resize /\
    cv2_cvtColor frame_resize COLOR_BGR2RGB = Ok image_rgb /\
    w1 = push (PrintFrame count (shape frame) (shape frame_resize)) w.
Proof.
  intros Hnoise Hrandom.
  unfold prepare, content_stage, auto_reload.
  rewrite Hnoise, (bool_decide_false (0 < random args)) by lia.
  cbn [andb]. unfold mbind, gets, lift, emit, mret.
  destruct (cv2_resize_by frame (scale (self w)) (scale (self w)))
    as [frame_resize|e]; [|done].
  destruct (cv2_cvtColor frame_resize COLOR_BGR2RGB) as [img|e] eqn:Ec;
    [|done].
  intros [= <- <-]. now exists frame_resize.
Qed.

Lemma infer_single_run image_rgb w stylized w1 :
  interpolate args = false ->
  infer args image_rgb w = (Ok stylized, w1) ->
  exists s0,
    py_getitem (style_rgbs (self w)) 0 = Some s0 /\
    predict image_rgb s0 (alpha (self w)) = Ok stylized /\
    w1 = push (CallPredict image_rgb s0 (alpha (self w))) w.
Proof.
  intros Hinterp. unfold infer. rewrite Hinterp. cbn [negb].
  unfold mbind, gets, from_option, emit, lift, mret, raise.
  destruct (py_getitem (style_rgbs (self w)) 0) as [s0|]; [|done].
  simpl. destruct (predict image_rgb s0 (alpha (self w))) as [img|e] eqn:Ep;
    [|done].
  intros [= <- <-]. now exists s0.
Qed.

Lemma stitch_run stylized w stitched w1 :
  interpolate args = false ->
  stitch args stylized w = (Ok stitched, w1) ->
  w1 = w /\
  if concat args then
    exists s resized,
      py_getitem (style_rgbs (self w)) 0 = Some (Some s) /\
      cv2_resize s ((shape stylized).1.1, (shape stylized).1.1) = Ok resized /\
      np_hstack [resized; stylized] = Ok stitched
  else stitched = stylized.
Proof.
  intros Hinterp. unfold stitch. rewrite Hinterp. cbn [negb].
  rewrite andb_true_r. destruct (concat args).
  - unfold mbind, gets, from_option, lift, mret, raise.
    destruct (py_getitem (style_rgbs (self w)) 0) as [[s|]|]; [|done|done].
    simpl.
    destruct (cv2_resize s ((shape stylized).1.1, (shape stylized).1.1))
      as [resized|e] eqn:Er; [|done].
    destruct (np_hstack [resized; stylized]) as [img|e] eqn:Eh; [|done].
    intros [= <- <-]. split; [done|]. now exists s, resized.
  - now intros [= <- <-].
Qed.

Lemma output_run out stitched w w1 :
  output args out stitched w = (Ok tt, w1) ->
  exists bgr shown,
    cv2_cvtColor stitched COLOR_RGB2BGR = Ok bgr /\
    match video_out args with
    | Some _ => cv2_resize bgr out = Ok shown
    | None => shown = bgr
    end /\
    trace w1
    = trace w
      ++ match video_out args with
         | Some _ => [VideoWrite shown]
         | None => []
         end
      ++ [ImShow "AdaIN Style" shown; FpsUpdate].
Proof.
  unfold output, mbind, lift, emit, mret, push.
  destruct (cv2_cvtColor stitched COLOR_RGB2BGR) as [bgr|e]; [|done].
  destruct (video_out args); simpl.
  - destruct (cv2_resize bgr out) as [resized|e] eqn:Er; [|done]. simpl.
    intros [= <-]. exists bgr, resized. simpl.
    now rewrite <- !app_assoc.
  - intros [= <-]. exists bgr, bgr. simpl. now rewrite <- !app_assoc.
Qed.

(** X7: the alpha trackbar reaches the engine, and what the engine returns
    reaches the screen.  In single-style mode (noise mode off, no periodic
    reload, [keep_colors] off), after [set_alpha v] a pass that returns on
    a frame has called [predict] once, on the resized frame converted to
    RGB, the first style slot and [v / 100]; and the frame it has shown in
    the main window, and written to the video file when there is one, is
    the image [predict] returned: stacked to the right of the style in
    concat mode, converted to BGR, and resized to the video size when there
    is a video file. *)
Theorem alpha_reaches_engine (v : Z) (out : Z * Z) (t : Tick) (frame : Img)
    (count : Z) (w : World) (ctl : LoopCtl) (w' : World) :
  interpolate args = false ->
  noise args = false ->
  random args <= 0 ->
  cam t = Some frame ->
  body args out t false count (set_alpha v w).2 = (Ok ctl, w') ->
  exists frame_resize image_rgb s0 stylized stitched bgr shown evs_key,
    cv2_resize_by frame (scale (self w)) (scale (self w)) = Ok frame_resize /\
    cv2_cvtColor frame_resize COLOR_BGR2RGB = Ok image_rgb /\
    py_getitem (style_rgbs (self w)) 0 = Some s0 /\
    predict image_rgb s0 (PFloat (truediv v 100)) = Ok stylized /\
    (if concat args then
       exists s resized,
         s0 = Some s /\
         cv2_resize s ((shape stylized).1.1, (shape stylized).1.1)
         = Ok resized /\
         np_hstack [resized; stylized] = Ok stitched
     else stitched = stylized) /\
    cv2_cvtColor stitched COLOR_RGB2BGR = Ok bgr /\
    match video_out args with
    | Some _ => cv2_resize bgr out = Ok shown
    | None => shown = bgr
    end /\
    trace w'
    = trace w
      ++ [PrintFrame (count + 1) (shape frame) (shape frame_resize);
          CallPredict image_rgb s0 (PFloat (truediv v 100))]
      ++ match video_out args with
         | Some _ => [VideoWrite shown]
         | None => []
         end
      ++ [ImShow "AdaIN Style" shown; FpsUpdate]
      ++ evs_key /\
    Forall control_event evs_key.
Proof.
  intros Hinterp Hnoise Hrandom Hcam. unfold body. rewrite Hcam. cbv zeta.
  intros H.
  apply run_bind_inv in H as (image_rgb & w1 & Hprep & H).
  apply run_bind_inv in H as (stylized & w2 & Hinfer & H).
  apply run_bind_inv in H as (stitched & w3 & Hstitch & H).
  apply run_bind_inv in H as ([] & w4 & Hout & Hkey).
  destruct (prepare_quiet_run _ _ _ _ _ Hnoise Hrandom Hprep)
    as (frame_resize & Hr & Hc & ->).
  destruct (infer_single_run _ _ _ _ Hinterp Hinfer) as (s0 & Hs0 & Hp & ->).
  destruct (stitch_run _ _ _ _ Hinterp Hstitch) as [-> Hst].
  destruct (output_run _ _ _ _ Hout) as (bgr & shown & Hb & Hsh & Tout).
  pose proof (appends_handle_key_control t false (count + 1) w4)
    as (evs_key & Tkey & Fkey).
  rewrite Hkey in Tkey. simpl in Tkey, Hs0, Hp, Hst, Hr, Tout.
  exists frame_resize, image_rgb, s0, stylized, stitched, bgr, shown, evs_key.
  repeat split; try done.
  - destruct (concat args); [|done].
    destruct Hst as (s & resized & Hs & Hrs & Hh).
    exists s, resized. repeat split; try done. congruence.
  - rewrite Tkey, Tout, <- !app_assoc. reflexivity.
Qed.

End Facts.


(** * The facts at work on the test bench *)

Import Bench.

(** C1 does not hold as stated.  On the catalog with a damaged file the
    window is constructed with the sound style; moving the index trackbar
    to the damaged one leaves that index stored, and from then on every
    [set_size] and [set_crop_size] call raises the loader's error. *)
Lemma size_call_raises_on_damaged_style :
  (StyleWindow_init damaged_args "damaged" 512 (PInt 1) (PInt 1) false
     (seeded [0])).1 = Ok tt /\
  map fst (run_calls damaged_args [SetSize 600; SetCropSize 100]
             damaged_window)
  = [Raise (ExternalError "ImageLoadError");
     Raise (ExternalError "ImageLoadError")].
Proof. vm_compute. split; reflexivity. Qed.

(** C1 on the bench: a freshly constructed window, and four calls.  The
    crop size never exceeds the target size; the first two calls return,
    and with the crop size at 0 the loader gives an image without pixels,
    which [cv2.resize] in [show_style] rejects: the third call raises, and
    so does the fourth, which leaves the crop size at 0. *)
Lemma size_crop_clamping_witness :
  let w := window_of bench_args [0] in
  let calls := [SetSize 100; SetCropSize 700; SetCropSize 0; SetSize 2048] in
  Forall (fun rw => crop_size (self rw.2) <= img_size (self rw.2))
    (run_calls bench_args calls w) /\
  Forall (fun rw => rw.1 = Ok tt <-> reloads bench_args rw.2)
    (run_calls bench_args calls w) /\
  map fst (run_calls bench_args calls w)
  = [Ok tt; Ok tt; Raise CvError; Raise CvError].
Proof.
  cbv zeta.
  destruct (size_crop_clamping bench_args
              [SetSize 100; SetCropSize 700; SetCropSize 0; SetSize 2048]
              (window_of bench_args [0])) as (Hinv & _ & _ & Hok).
  split; [exact Hinv|]. split; [exact Hok|]. vm_compute. reflexivity.
Defined.

(** C2 does not hold as stated.  Ten frames, the engine failing on the
    fourth: the error leaves [main], three frames were shown, and the six
    frames after the failing one were never processed. *)
Lemma engine_error_escapes_main :
  length ten_frames = 10%nat /\
  (main bench_args (Some (camera_frame 1)) ten_frames (seeded [0])).1
  = Raise (ExternalError "engine") /\
  length (shown_frames
            (trace (main bench_args (Some (camera_frame 1)) ten_frames
                      (seeded [0])).2)) = 3%nat.
Proof. vm_compute. repeat split; reflexivity. Qed.

(** C2 on the bench: the same session, cut at the failing frame. *)
Lemma engine_error_ends_loop_witness :
  loop bench_args session_shape frames_before false 0 session_start
  = (Ok (Running false 3), session_before_bad) /\
  cam frame_bad = Some (camera_frame 13) /\
  prepare bench_args (camera_frame 13) false (3 + 1) session_before_bad
  = (Ok (camera_frame 13), session_prepared) /\
  infer bench_args (camera_frame 13) session_prepared
  = (Raise (ExternalError "engine"), session_failed) /\
  loop bench_args session_shape (frames_before ++ frame_bad :: frames_after)
    false 0 session_start
  = (Raise (ExternalError "engine"), session_failed) /\
  shown_frames (trace session_failed)
  = shown_frames (trace session_before_bad) /\
  length (shown_frames (trace session_failed)) = 3%nat.
Proof.
  assert (loop bench_args session_shape frames_before false 0 session_start
          = (Ok (Running false 3), session_before_bad)) as H1.
  { unfold session_before_bad.
    apply (run_result (loop bench_args session_shape frames_before false 0)
             session_start).
    vm_compute. reflexivity. }
  assert (prepare bench_args (camera_frame 13) false (3 + 1)
            session_before_bad
          = (Ok (camera_frame 13), session_prepared)) as H2.
  { unfold session_prepared.
    apply (run_result
             (prepare (IM:=bench_imaging) bench_args (camera_frame 13) false
                (3 + 1))
             session_before_bad).
    vm_compute. reflexivity. }
  assert (infer bench_args (camera_frame 13) session_prepared
          = (Raise (ExternalError "engine"), session_failed)) as H3.
  { unfold session_failed.
    apply (run_result (infer (IM:=bench_imaging) bench_args (camera_frame 13))
             session_prepared).
    vm_compute. reflexivity. }
  pose proof (engine_error_ends_loop bench_args session_shape frames_before
                frames_after frame_bad false 0 session_start false 3
                session_before_bad (camera_frame 13) (camera_frame 13)
                session_prepared (ExternalError "engine") session_failed
                H1 eq_refl H2 H3) as (Hloop & Hshown & _).
  split; [exact H1|]. split; [reflexivity|]. split; [exact H2|].
  split; [exact H3|]. split; [exact Hloop|]. split; [exact Hshown|].
  vm_compute. reflexivity.
Defined.

(** C3 on the bench: with [--keep-colors] the first pass raises
    [AttributeError] and the engine is never called. *)
Example keep_colors_session_raises :
  (main keep_colors_args (Some (camera_frame 1)) ten_frames (seeded [0])).1
  = Raise (AttributeError "style_rgb") /\
  engine_calls
    (trace (main keep_colors_args (Some (camera_frame 1)) ten_frames
              (seeded [0])).2) = [].
Proof. vm_compute. split; reflexivity. Qed.

(** C4 on the bench: recording in concat mode at scale 0.5; the scale
    trackbar moves to 150 during the second pass, and the five frames
    written are all 560 by 240. *)
Lemma video_size_locked_witness :
  video_out video_args = Some "out.avi" /\
  trace (seeded [0; 1; 1]) = [] /\
  cv2_resize_by (camera_frame 1) (arg_scale video_args) (arg_scale video_args)
  = Ok sample_resized /\
  video_out_shape video_args (shape sample_resized) = (560, 240) /\
  Forall
    (fun img =>
       (exists src,
          cv2_resize src (video_out_shape video_args (shape sample_resized))
          = Ok img) /\
       (shape img).1 = ((video_out_shape video_args (shape sample_resized)).2,
                        (video_out_shape video_args (shape sample_resized)).1))
    (video_writes
       (trace (main video_args (Some (camera_frame 1)) video_ticks
                 (seeded [0; 1; 1])).2)) /\
  length (video_writes
            (trace (main video_args (Some (camera_frame 1)) video_ticks
                      (seeded [0; 1; 1])).2)) = 5%nat /\
  writer_opens
    (trace (main video_args (Some (camera_frame 1)) video_ticks
              (seeded [0; 1; 1])).2) = [(560, 240)].
Proof.
  assert (cv2_resize_by (camera_frame 1) (arg_scale video_args)
            (arg_scale video_args) = Ok sample_resized) as Hr
    by (vm_compute; reflexivity).
  pose proof (video_size_locked video_args "out.avi" (camera_frame 1)
                video_ticks (seeded [0; 1; 1]) eq_refl eq_refl) as H.
  cbv zeta in H. rewrite Hr in H. destruct H as (_ & Hall & _).
  split; [reflexivity|]. split; [reflexivity|]. split; [exact Hr|].
  split; [vm_compute; reflexivity|]. split; [exact Hall|].
  split; vm_compute; reflexivity.
Defined.

(** C5 on the bench: the interpolation trackbar at 30 gives the weights
    3/10 and 7/10. *)
Lemma interpolation_weights_witness :
  interpolate interp_args = true /\
  infer interp_args (camera_frame 7)
    (set_interp 30 (window_of interp_args [0; 1])).2
  = (predict_interpolate (camera_frame 7)
       (style_rgbs (self (window_of interp_args [0; 1])))
       [truediv 30 100; rsub 1 (truediv 30 100)]
       (alpha (self (window_of interp_args [0; 1]))),
     push (CallPredictInterpolate (camera_frame 7)
             (style_rgbs (self (window_of interp_args [0; 1])))
             [truediv 30 100; rsub 1 (truediv 30 100)]
             (alpha (self (window_of interp_args [0; 1]))))
       (set_interp 30 (window_of interp_args [0; 1])).2) /\
  [truediv 30 100; rsub 1 (truediv 30 100)] = [(3 # 10)%Q; (7 # 10)%Q].
Proof.
  pose proof (interpolation_weights interp_args 30 (camera_frame 7)
                (window_of interp_args [0; 1]) eq_refl) as H.
  cbv zeta in H. destruct H as (_ & _ & Hcall & _).
  split; [reflexivity|]. split; [exact Hcall|]. vm_compute. reflexivity.
Defined.

(** C6 on the bench: a catalog of one image, a session in which [r] is
    pressed, and draws 5 and 7 from the generator. *)
Lemma single_style_catalog_witness :
  get_files (style_path single_args) = Ok ["a.jpg"] /\
  length ["a.jpg"] = 1%nat /\
  index_trackbars
    (trace (main single_args (Some (camera_frame 1))
              [quiet_tick 1;
               {| cam := Some (camera_frame 2); ui := []; key := 114 |}]
              (seeded [5; 7])).2) = [] /\
  idx (self (set_style single_args None true 0 "Style Controls"
               (window_of single_args [5])).2) = Some 0.
Proof.
  pose proof (single_style_catalog single_args ["a.jpg"] eq_refl eq_refl)
    as [Hbar Hidx].
  split; [reflexivity|]. split; [reflexivity|]. split.
  - exact (Hbar (Some (camera_frame 1))
             [quiet_tick 1;
              {| cam := Some (camera_frame 2); ui := []; key := 114 |}]
             (seeded [5; 7]) eq_refl).
  - apply Hidx. vm_compute. reflexivity.
Defined.

(** C9 on the bench: two different camera frames of the same shape; the
    content is the generator's array, whose label is the next draw. *)
Lemma noise_content_independent_witness :
  noise noise_args = true /\
  shape (camera_frame 1) = shape (camera_frame 2) /\
  camera_frame 1 <> camera_frame 2 /\
  content_stage noise_args (camera_frame 1) 1 (window_of noise_args [0; 99])
  = content_stage noise_args (camera_frame 2) 1
      (window_of noise_args [0; 99]) /\
  cv2_resize_by (camera_frame 1)
    (scale (self (window_of noise_args [0; 99])))
    (scale (self (window_of noise_args [0; 99]))) = Ok (camera_frame 1) /\
  (content_stage noise_args (camera_frame 1) 1
     (window_of noise_args [0; 99])).1
  = Ok {| pshape := (480, 640, 3); label := 99 |}.
Proof.
  assert (cv2_resize_by (camera_frame 1)
            (scale (self (window_of noise_args [0; 99])))
            (scale (self (window_of noise_args [0; 99])))
          = Ok (camera_frame 1)) as Hr by (vm_compute; reflexivity).
  destruct (noise_content_independent (IM:=bench_imaging) noise_args
              (camera_frame 1) (camera_frame 2) 1 (window_of noise_args [0; 99])
              eq_refl eq_refl) as (Hsame & _ & Himage).
  split; [reflexivity|]. split; [reflexivity|]. split; [discriminate|].
  split; [exact Hsame|]. split; [exact Hr|].
  rewrite (Himage _ Hr). vm_compute. reflexivity.
Defined.

(** C10 on the bench: while interpolating, the size trackbar moves to 300;
    the call returns, slot 0 changes and slot 1 does not. *)
Lemma mutators_reload_first_slot_only_witness :
  (set_size interp_args 300 (window_of interp_args [0; 1])).1 = Ok tt /\
  style_rgbs (self (set_size interp_args 300
                      (window_of interp_args [0; 1])).2) !! 1%nat
  = style_rgbs (self (window_of interp_args [0; 1])) !! 1%nat /\
  style_rgbs (self (set_size interp_args 300
                      (window_of interp_args [0; 1])).2) !! 0%nat
  <> style_rgbs (self (window_of interp_args [0; 1])) !! 0%nat.
Proof.
  pose proof (mutators_reload_first_slot_only interp_args 300
                (window_of interp_args [0; 1])) as H.
  apply Forall_cons in H as [_ H]. apply Forall_cons in H as [[Hslot _] _].
  split; [vm_compute; reflexivity|]. split; [exact Hslot|].
  vm_compute. discriminate.
Defined.

(** * The further facts on the test bench *)

(** X2 on the bench: the window constructed for interpolation. *)
Lemma constructor_postcondition_witness :
  (StyleWindow_init interp_args "two" 512 (PInt 1) (PInt 1) true
     (seeded [0; 1])).1 = Ok tt /\
  constructed
    (self (StyleWindow_init interp_args "two" 512 (PInt 1) (PInt 1) true
             (seeded [0; 1])).2) /\
  interp_weight
    (self (StyleWindow_init interp_args "two" 512 (PInt 1) (PInt 1) true
             (seeded [0; 1])).2) = Some (float_of_Z 1).
Proof.
  assert ((StyleWindow_init interp_args "two" 512 (PInt 1) (PInt 1) true
             (seeded [0; 1])).1 = Ok tt) as Hok
    by (vm_compute; reflexivity).
  pose proof (constructor_postcondition interp_args "two" 512 (PInt 1)
                (PInt 1) true (seeded [0; 1]) Hok) as H.
  cbv zeta iota in H. destruct H as (Hc & _ & Hw & _).
  split; [exact Hok|]. split; [exact Hc | exact Hw].
Defined.

(** X3 on the bench: a style directory without images. *)
Lemma catalog_error_escapes_main_witness :
  get_files (style_path empty_args)
  = Raise (ExternalError "EmptyCatalogError") /\
  main empty_args (Some (camera_frame 1)) ten_frames (seeded [0])
  = (Raise (ExternalError "EmptyCatalogError"),
     push (LoadModel (checkpoint empty_args) (device empty_args))
       (seeded [0])).
Proof.
  split; [reflexivity|].
  exact (catalog_error_escapes_main empty_args (Some (camera_frame 1))
           ten_frames (seeded [0]) (ExternalError "EmptyCatalogError")
           eq_refl).
Defined.

(** X4 on the bench: a random selection that draws the damaged file. *)
Lemma random_selection_in_range_witness :
  style_imgs (self (window_of damaged_args [0; 1])) <> [] /\
  exists r file,
    idx (self (set_style damaged_args None true 0 "Style Controls"
                 (window_of damaged_args [0; 1])).2) = Some r /\
    0 <= r < Z.of_nat (length (style_imgs
                                 (self (window_of damaged_args [0; 1])))) /\
    py_getitem (style_imgs (self (window_of damaged_args [0; 1]))) r
    = Some file /\
    forall e,
      (set_style damaged_args None true 0 "Style Controls"
         (window_of damaged_args [0; 1])).1 = Raise e ->
      get_img_crop file
        (img_size (self (window_of damaged_args [0; 1])))
        (crop_size (self (window_of damaged_args [0; 1]))) = Raise e \/
      (e = IndexError /\
       py_getitem (style_rgbs (self (window_of damaged_args [0; 1]))) 0
       = None) \/
      (exists img,
         get_img_crop file
           (img_size (self (window_of damaged_args [0; 1])))
           (crop_size (self (window_of damaged_args [0; 1]))) = Ok img /\
         preview damaged_args img = Raise e).
Proof.
  assert (style_imgs (self (window_of damaged_args [0; 1])) <> []) as Hne
    by (vm_compute; discriminate).
  split; [exact Hne|].
  exact (random_selection_in_range damaged_args None 0 "Style Controls"
           (window_of damaged_args [0; 1]) Hne).
Defined.

(** X5 on the bench: index 5 on a catalog of two. *)
Lemma set_idx_out_of_range_witness :
  (5 < - Z.of_nat (length (style_imgs (self (window_of bench_args [0])))) \/
   Z.of_nat (length (style_imgs (self (window_of bench_args [0])))) <= 5) /\
  set_idx bench_args 5 (window_of bench_args [0])
  = (Raise IndexError, update (with_idx 5) (window_of bench_args [0])) /\
  (size_call bench_args (SetSize 300)
     (update (with_idx 5) (window_of bench_args [0]))).1 = Raise IndexError.
Proof.
  assert (5 < - Z.of_nat (length (style_imgs
                                    (self (window_of bench_args [0])))) \/
          Z.of_nat (length (style_imgs (self (window_of bench_args [0]))))
          <= 5) as Hout
    by (right; vm_compute; discriminate).
  destruct (set_idx_out_of_range bench_args 5 (window_of bench_args [0]) Hout)
    as (Hraise & Hcalls & _).
  split; [exact Hout|]. split; [exact Hraise | exact (Hcalls (SetSize 300))].
Defined.

(** X6 on the bench: both slots end up showing the first catalog entry. *)
Lemma size_call_after_second_style_witness :
  set_style interp_args None true 1 "style2" (window_of interp_args [0; 1; 0])
  = (Ok tt, second_loaded) /\
  size_call interp_args (SetSize 300) second_loaded = (Ok tt, second_resized) /\
  exists file img1 img0,
    get_img_crop file
      (img_size (self (window_of interp_args [0; 1; 0])))
      (crop_size (self (window_of interp_args [0; 1; 0]))) = Ok img1 /\
    style_rgbs (self second_loaded) !! 1%nat = Some (Some img1) /\
    get_img_crop file (img_size (self second_resized))
      (crop_size (self second_resized)) = Ok img0 /\
    style_rgbs (self second_resized) !! 0%nat = Some (Some img0) /\
    style_rgbs (self second_resized) !! 1%nat = Some (Some img1).
Proof.
  assert (set_style interp_args None true 1 "style2"
            (window_of interp_args [0; 1; 0]) = (Ok tt, second_loaded)) as H1.
  { unfold second_loaded.
    apply (run_result (set_style interp_args None true 1 "style2")
             (window_of interp_args [0; 1; 0])).
    vm_compute. reflexivity. }
  assert (size_call interp_args (SetSize 300) second_loaded
          = (Ok tt, second_resized)) as H2.
  { unfold second_resized.
    apply (run_result (size_call interp_args (SetSize 300)) second_loaded).
    vm_compute. reflexivity. }
  split; [exact H1|]. split; [exact H2|].
  exact (size_call_after_second_style interp_args None true (SetSize 300)
           (window_of interp_args [0; 1; 0]) second_loaded second_resized
           H1 H2).
Defined.

(** X7 on the bench: the alpha trackbar at 80, then a quiet pass. *)
Lemma alpha_reaches_engine_witness :
  interpolate bench_args = false /\
  noise bench_args = false /\
  random bench_args <= 0 /\
  cam (quiet_tick 7) = Some (camera_frame 7) /\
  body bench_args session_shape (quiet_tick 7) false 0
    (set_alpha 80 session_start).2
  = (Ok (Next false 1), alpha_pass) /\
  exists s0 shown,
    predict (camera_frame 7) s0 (PFloat (truediv 80 100)) = Ok shown /\
    trace alpha_pass
    = trace session_start
      ++ [PrintFrame (0 + 1) (shape (camera_frame 7)) (shape (camera_frame 7));
          CallPredict (camera_frame 7) s0 (PFloat (truediv 80 100));
          ImShow "AdaIN Style" shown; FpsUpdate].
Proof.
  assert (random bench_args <= 0) as Hrandom by (vm_compute; discriminate).
  assert (body bench_args session_shape (quiet_tick 7) false 0
            (set_alpha 80 session_start).2
          = (Ok (Next false 1), alpha_pass)) as Hbody.
  { unfold alpha_pass.
    apply (run_result (body bench_args session_shape (quiet_tick 7) false 0)
             (set_alpha 80 session_start).2).
    vm_compute. reflexivity. }
  split; [reflexivity|]. split; [reflexivity|]. split; [exact Hrandom|].
  split; [reflexivity|]. split; [exact Hbody|].
  destruct (alpha_reaches_engine bench_args 80 session_shape (quiet_tick 7)
              (camera_frame 7) 0 session_start (Next false 1) alpha_pass
              eq_refl eq_refl Hrandom eq_refl Hbody)
    as (frame_resize & image_rgb & s0 & stylized & stitched & bgr & shown
        & evs_key & Hr & Hc & Hs0 & Hp & Hst & Hb & Hsh & Htr & Hkey).
  assert (frame_resize = camera_frame 7) as ->.
  { assert (cv2_resize_by (camera_frame 7) (scale (self session_start))
              (scale (self session_start)) = Ok (camera_frame 7)) as E
      by (vm_compute; reflexivity).
    rewrite E in Hr. now injection Hr. }
  assert (image_rgb = camera_frame 7) as ->.
  { assert (cv2_cvtColor (camera_frame 7) COLOR_BGR2RGB
            = Ok (camera_frame 7)) as E by reflexivity.
    rewrite E in Hc. now injection Hc. }
  simpl in Hst, Hsh. subst stitched shown.
  assert (bgr = stylized /\ evs_key = []) as [-> ->].
  { assert (stylized = camera_frame 7) as ->.
    { assert (predict (camera_frame 7) s0 (PFloat (truediv 80 100))
              = Ok (camera_frame 7)) as E by reflexivity.
      rewrite E in Hp. now injection Hp. }
    assert (cv2_cvtColor (camera_frame 7) COLOR_RGB2BGR
            = Ok (camera_frame 7)) as E by reflexivity.
    rewrite E in Hb. injection Hb as <-. split; [done|].
    assert (length (trace alpha_pass)
            = (length (trace session_start) + 4)%nat) as Hlen
      by (vm_compute; reflexivity).
    rewrite Htr, !length_app in Hlen. simpl in Hlen.
    destruct evs_key; [done | simpl in Hlen; lia]. }
  exists s0, stylized. split; [exact Hp|].
  rewrite Htr. apply (f_equal (app (trace session_start))). reflexivity.
Defined.

(** X9 on the bench: [q] with and without a modifier bit. *)
Lemma key_low_byte_only_witness :
  ui q_tick = ui q_tick_high /\
  key q_tick mod 256 = key q_tick_high mod 256 /\
  handle_key bench_args q_tick false 1 session_start
  = handle_key bench_args q_tick_high false 1 session_start.
Proof.
  split; [reflexivity|]. split; [reflexivity|].
  exact (key_low_byte_only bench_args q_tick q_tick_high false 1
           session_start eq_refl eq_refl).
Defined.

(** X10 on the bench: [c] in the first pass, a frame in the second. *)
Lemma c_key_ends_session_witness :
  cam c_tick = Some (camera_frame 20) /\
  Z.land (key c_tick) 255 = 99 /\
  body bench_args session_shape c_tick false 0 session_start
  = (Ok (Next true 1), after_c) /\
  cam (quiet_tick 21) = Some (camera_frame 21) /\
  exists e,
    (loop bench_args session_shape (c_tick :: quiet_tick 21 :: frames_after)
       false 0 session_start).1 = Raise e.
Proof.
  assert (body bench_args session_shape c_tick false 0 session_start
          = (Ok (Next true 1), after_c)) as Hbody.
  { unfold after_c.
    apply (run_result (body bench_args session_shape c_tick false 0)
             session_start).
    vm_compute. reflexivity. }
  destruct (c_key_ends_session bench_args session_shape c_tick (quiet_tick 21)
              frames_after (camera_frame 20) (camera_frame 21) 0 session_start
              (Next true 1) after_c eq_refl eq_refl Hbody eq_refl)
    as [_ Hraise].
  split; [reflexivity|]. split; [reflexivity|]. split; [exact Hbody|].
  split; [reflexivity | exact Hraise].
Defined.

(** X11 on the bench: the three frames before the failing one. *)
Lemma loop_counts_frames_witness :
  loop bench_args session_shape frames_before false 0 session_start
  = (Ok (Running false 3), session_before_bad) /\
  3 = 0 + Z.of_nat (length frames_before).
Proof.
  assert (loop bench_args session_shape frames_before false 0 session_start
          = (Ok (Running false 3), session_before_bad)) as H1.
  { unfold session_before_bad.
    apply (run_result (loop bench_args session_shape frames_before false 0)
             session_start).
    vm_compute. reflexivity. }
  split; [exact H1|].
  exact (proj1 (loop_counts_frames bench_args session_shape frames_before
                  false 0 session_start false 3 session_before_bad H1)).
Defined.

(** X17 on the bench: the same three frames. *)
Lemma loop_one_call_per_frame_witness :
  loop bench_args session_shape frames_before false 0 session_start
  = (Ok (Running false 3), session_before_bad) /\
  exists evs,
    trace session_before_bad = trace session_start ++ evs /\
    length (shown_frames evs) = length frames_before /\
    length (engine_calls evs) = length frames_before.
Proof.
  assert (loop bench_args session_shape frames_before false 0 session_start
          = (Ok (Running false 3), session_before_bad)) as H1.
  { unfold session_before_bad.
    apply (run_result (loop bench_args session_shape frames_before false 0)
             session_start).
    vm_compute. reflexivity. }
  split; [exact H1|].
  exact (loop_one_call_per_frame bench_args session_shape frames_before
           false 0 session_start false 3 session_before_bad H1).
Defined.

(** X12 on the bench: a pass with no trackbar move and no key. *)
Lemma quiet_pass_leaves_state_witness :
  noise bench_args = false /\
  random bench_args <= 0 /\
  ui (quiet_tick 5) = [] /\
  Z.land (key (quiet_tick 5)) 255 <> 114 /\
  self (body bench_args session_shape (quiet_tick 5) false 0 session_start).2
  = self session_start /\
  rng (body bench_args session_shape (quiet_tick 5) false 0 session_start).2
  = rng session_start.
Proof.
  assert (random bench_args <= 0) as Hrandom by (vm_compute; discriminate).
  assert (Z.land (key (quiet_tick 5)) 255 <> 114) as Hkey
    by (vm_compute; discriminate).
  split; [reflexivity|]. split; [exact Hrandom|]. split; [reflexivity|].
  split; [exact Hkey|].
  exact (quiet_pass_leaves_state bench_args session_shape (quiet_tick 5) 0
           session_start eq_refl Hrandom eq_refl Hkey).
Defined.

(** X13 on the bench: the recording session. *)
Lemma video_file_gets_shown_frames_witness :
  video_out video_args = Some "out.avi" /\
  exists evs,
    trace (main video_args (Some (camera_frame 1)) video_ticks
             (seeded [0; 1; 1])).2 = trace (seeded [0; 1; 1]) ++ evs /\
    shown_frames evs = video_writes evs.
Proof.
  split; [reflexivity|].
  exact (video_file_gets_shown_frames video_args "out.avi"
           (Some (camera_frame 1)) video_ticks (seeded [0; 1; 1]) eq_refl).
Defined.

(** X14 on the bench: the session without a video file. *)
Lemma no_video_out_no_writer_witness :
  video_out bench_args = None /\
  exists evs,
    trace (main bench_args (Some (camera_frame 1)) ten_frames (seeded [0])).2
    = trace (seeded [0]) ++ evs /\
    Forall no_video_event evs.
Proof.
  split; [reflexivity|].
  exact (no_video_out_no_writer bench_args (Some (camera_frame 1)) ten_frames
           (seeded [0]) eq_refl).
Defined.

(** X15 on the bench: the same session. *)
Lemma single_style_second_slot_empty_witness :
  interpolate bench_args = false /\
  style_rgbs
    (self (main bench_args (Some (camera_frame 1)) ten_frames (seeded [0])).2)
  !! 1%nat = Some None.
Proof.
  split; [reflexivity|].
  exact (single_style_second_slot_empty bench_args (Some (camera_frame 1))
           ten_frames (seeded [0]) eq_refl).
Defined.
